(** * caproto: client constants, exception hierarchy and the PV-group server DSL

    A shallow embedding of [caproto/client/common.py] and
    [caproto/curio/high_level_server.py], with the properties the
    specification states about them.

    Conventions.
    - A Python object that matters only through its type and its first
      element is a [pyval]; [VNone] is Python's [None].
    - A call that may raise returns a [result]; the exception classes are
      the constructors of [pyexc].
    - Python floats that are only doubled and compared are rationals ([Q]):
      doubling and [min] are exact on binary floats, so the order facts
      proved here carry over.
    - A module body is a sequence of state transformers on the module's
      namespace, executed top to bottom. *)

From Stdlib Require Import ZArith QArith Qminmax Ascii Lia Lqa.
From stdpp Require Import base option list strings gmap fin_maps.

Set Warnings "-register-all".

Open Scope string_scope.
Open Scope list_scope.

(** ** Python values, types and exceptions *)

Inductive pytype : Type :=
  | ty_NoneType | ty_bool | ty_int | ty_float | ty_str | ty_bytes
  | ty_list | ty_tuple.

Inductive pyval : Type :=
  | VNone
  | VBool (b : bool)
  | VInt (z : Z)
  | VFloat (q : Q)
  | VStr (s : string)
  | VBytes (bs : list Z)
  | VList (xs : list pyval)
  | VTuple (xs : list pyval).

Inductive pyexc : Type :=
  | TypeError | IndexError | KeyError | NameError | AttributeError
  | ValueError | AssertionError | RuntimeError.

Inductive result (A : Type) : Type :=
  | Ok (a : A)
  | Raise (e : pyexc).
Arguments Ok {A} a.
Arguments Raise {A} e.

#[global] Instance result_ret : MRet result := fun A a => Ok a.
#[global] Instance result_bind : MBind result := fun A B f m =>
  match m with
  | Ok a => f a
  | Raise e => Raise e
  end.

#[global] Instance pytype_eq_dec : EqDecision pytype.
Proof. solve_decision. Defined.
#[global] Instance pyexc_eq_dec : EqDecision pyexc.
Proof. solve_decision. Defined.

(** [type(v)] *)
Definition type_of (v : pyval) : pytype :=
  match v with
  | VNone => ty_NoneType
  | VBool _ => ty_bool
  | VInt _ => ty_int
  | VFloat _ => ty_float
  | VStr _ => ty_str
  | VBytes _ => ty_bytes
  | VList _ => ty_list
  | VTuple _ => ty_tuple
  end.

(** Objects without [__getitem__]. *)
Definition subscriptable (v : pyval) : bool :=
  match v with
  | VStr _ | VBytes _ | VList _ | VTuple _ => true
  | VNone | VBool _ | VInt _ | VFloat _ => false
  end.

(** [v[0]]: the first character of a str (a str of length one), the first
    byte of a bytes object (an int), the first item of a list or tuple;
    [IndexError] on an empty sequence, [TypeError] on anything without
    [__getitem__]. *)
Definition getitem0 (v : pyval) : result pyval :=
  match v with
  | VStr EmptyString => Raise IndexError
  | VStr (String c _) => Ok (VStr (String c EmptyString))
  | VBytes [] => Raise IndexError
  | VBytes (b :: _) => Ok (VInt b)
  | VList [] | VTuple [] => Raise IndexError
  | VList (x :: _) | VTuple (x :: _) => Ok x
  | VNone | VBool _ | VInt _ | VFloat _ => Raise TypeError
  end.

#[global] Instance result_fmap : FMap result := fun A B f m =>
  match m with
  | Ok a => Ok (f a)
  | Raise e => Raise e
  end.

(** ** OrderedDict

    An [OrderedDict] with str keys is the list of its items in insertion
    order. [d[k] = v] replaces the value of a key that is present, in
    place, and appends a new key at the end. *)

Fixpoint od_set {V : Type} (k : string) (v : V) (d : list (string * V))
    : list (string * V) :=
  match d with
  | [] => [(k, v)]
  | (k', v') :: rest =>
      if decide (k = k') then (k, v) :: rest else (k', v') :: od_set k v rest
  end.

Fixpoint od_get {V : Type} (k : string) (d : list (string * V)) : option V :=
  match d with
  | [] => None
  | (k', v') :: rest => if decide (k = k') then Some v' else od_get k rest
  end.

Definition od_keys {V : Type} (d : list (string * V)) : list string :=
  map fst d.

(** The dict that results from the assignments [items], made in order. *)
Definition od_of_items {V : Type} (items : list (string * V))
    : list (string * V) :=
  foldl (fun d kv => od_set (fst kv) (snd kv) d) [] items.

(** Keys in order of first occurrence. *)
Definition first_occurrences (ks : list string) : list string :=
  foldl (fun acc k => if decide (k ∈ acc) then acc else acc ++ [k]) [] ks.

(** [s.rsplit('.', 1)] when [s] contains a dot: the text before the last
    dot and the text after it; [None] when ['.' in s] is false. *)
Fixpoint rsplit_dot (s : string) : option (string * string) :=
  match s with
  | EmptyString => None
  | String c rest =>
      match rsplit_dot rest with
      | Some (a, b) => Some (String c a, b)
      | None => if decide (c = "."%char) then Some (EmptyString, rest) else None
      end
  end.

(** ['.'.join([a, b])] *)
Definition dot_join (a b : string) : string := a +:+ "." +:+ b.

(** ** caproto/client/common.py *)

Module Common.

(** *** The module namespace

    A global name is bound to a value, to a class object (by its index in
    the table of class objects), or to a sentinel instance. A class object
    records its name and its method resolution order, computed when the
    class statement runs, as CPython does. *)

Inductive pyobj : Type :=
  | OVal (v : pyval)
  | OClass (id : nat)
  | OSentinel (repr : string).

Record pyclass : Type := mk_pyclass {
  c_name : string;
  c_mro : list nat
}.

Record module_state : Type := mk_module_state {
  classes : list pyclass;
  globals : gmap string pyobj
}.

(** Builtins: class 0 is [BaseException], class 1 is [Exception]. *)
Definition BaseException_id : nat := 0.
Definition Exception_id : nat := 1.

Definition builtin_classes : list pyclass :=
  [ mk_pyclass "BaseException" [BaseException_id];
    mk_pyclass "Exception" [Exception_id; BaseException_id] ].

Definition builtins : gmap string pyobj :=
  <["Exception" := OClass Exception_id]>
    (<["BaseException" := OClass BaseException_id]> ∅).

Definition initial_state : module_state :=
  mk_module_state builtin_classes ∅.

(** Name lookup at module level: globals, then builtins. *)
Definition lookup_name (st : module_state) (x : string) : result pyobj :=
  match globals st !! x with
  | Some o => Ok o
  | None =>
      match builtins !! x with
      | Some o => Ok o
      | None => Raise NameError
      end
  end.

Definition stmt : Type := module_state -> result module_state.

(** [x = v] *)
Definition assign (x : string) (o : pyobj) : stmt := fun st =>
  Ok (mk_module_state (classes st) (<[x := o]> (globals st))).

(** [class x(base): ...] with a single base: the base expression is
    evaluated, a new class object is created whose MRO is itself followed
    by the MRO of the base, and [x] is (re)bound to it. *)
Definition class_def (x base : string) : stmt := fun st =>
  b ← lookup_name st base;
  match b with
  | OClass bid =>
      match classes st !! bid with
      | Some bc =>
          let id := length (classes st) in
          Ok (mk_module_state
                (classes st ++ [mk_pyclass x (id :: c_mro bc)])
                (<[x := OClass id]> (globals st)))
      | None => Raise TypeError
      end
  | _ => Raise TypeError
  end.

Fixpoint exec (body : list stmt) (st : module_state) : result module_state :=
  match body with
  | [] => Ok st
  | s :: rest => st' ← s st; exec rest st'
  end.

(** [issubclass(c, d)] on class objects: [d] occurs in the MRO of [c]. *)
Definition issubclass (st : module_state) (c d : nat) : bool :=
  match classes st !! c with
  | Some cc => bool_decide (d ∈ c_mro cc)
  | None => false
  end.

(** [os.environ.get(key, default)]: the stored string when the variable is
    set, the default object otherwise. *)
Definition environ_get (environ : gmap string string) (key : string)
    (default : pyval) : pyval :=
  match environ !! key with
  | Some s => VStr s
  | None => default
  end.

(** [_sentinel(name)] *)
Definition _sentinel (name : string) : pyobj := OSentinel name.

(** *** The constants

    A float is modelled by the rational its literal denotes: [3 # 100]
    stands for the double nearest to [0.03] and [1 # 10] for the one
    nearest to [0.1]. *)

Definition CIRCUIT_DEATH_ATTEMPTS : nat := 3.
Definition AUTOMONITOR_MAXLENGTH : Z := 65536.
Definition TIMEOUT : Z := 2.
Definition EVENT_ADD_BATCH_MAX_BYTES : N := 2 ^ 16.
Definition MIN_RETRY_SEARCHES_INTERVAL : Q := 3 # 100.
Definition MAX_RETRY_SEARCHES_INTERVAL : Q := 5 # 1.
Definition SEARCH_RETIREMENT_AGE : Z := 8 * 60.
Definition RETRY_RETIRED_SEARCHES_INTERVAL : Z := 60.
Definition RESTART_SUBS_PERIOD : Q := 1 # 10.

Definition GLOBAL_DEFAULT_TIMEOUT (environ : gmap string string) : pyval :=
  environ_get environ "CAPROTO_DEFAULT_TIMEOUT" (VInt 2).

Definition STR_ENC (environ : gmap string string) : pyval :=
  environ_get environ "CAPROTO_STRING_ENCODING" (VStr "latin-1").

(** *** The module body, top to bottom *)

Definition module_body (environ : gmap string string) : list stmt :=
  [ class_def "ChannelReadError" "Exception";
    assign "CIRCUIT_DEATH_ATTEMPTS"
      (OVal (VInt (Z.of_nat CIRCUIT_DEATH_ATTEMPTS)));
    assign "GLOBAL_DEFAULT_TIMEOUT" (OVal (GLOBAL_DEFAULT_TIMEOUT environ));
    assign "CONTEXT_DEFAULT_TIMEOUT" (_sentinel "CONTEXT_DEFAULT_TIMEOUT");
    assign "PV_DEFAULT_TIMEOUT" (_sentinel "PV_DEFAULT_TIMEOUT");
    assign "VALID_CHANNEL_MARKER" (_sentinel "VALID_CHANNEL_MARKER");
    assign "AUTOMONITOR_MAXLENGTH" (OVal (VInt AUTOMONITOR_MAXLENGTH));
    assign "TIMEOUT" (OVal (VInt TIMEOUT));
    assign "EVENT_ADD_BATCH_MAX_BYTES"
      (OVal (VInt (Z.of_N EVENT_ADD_BATCH_MAX_BYTES)));
    assign "MIN_RETRY_SEARCHES_INTERVAL"
      (OVal (VFloat MIN_RETRY_SEARCHES_INTERVAL));
    assign "MAX_RETRY_SEARCHES_INTERVAL" (OVal (VInt 5));
    assign "SEARCH_RETIREMENT_AGE" (OVal (VInt SEARCH_RETIREMENT_AGE));
    assign "RETRY_RETIRED_SEARCHES_INTERVAL"
      (OVal (VInt RETRY_RETIRED_SEARCHES_INTERVAL));
    assign "RESTART_SUBS_PERIOD" (OVal (VFloat RESTART_SUBS_PERIOD));
    assign "STR_ENC" (OVal (STR_ENC environ));
    class_def "ClientException" "Exception";
    class_def "ChannelReadError" "ClientException";
    class_def "DisconnectedError" "ClientException";
    class_def "ContextDisconnectedError" "ClientException" ].

Definition import_module (environ : gmap string string) : result module_state :=
  exec (module_body environ) initial_state.

(** [issubclass(module.x, module.y)] for two global names of an imported
    module; [false] when either is not bound to a class. *)
Definition name_issubclass (st : module_state) (x y : string) : bool :=
  match globals st !! x, globals st !! y with
  | Some (OClass c), Some (OClass d) => issubclass st c d
  | _, _ => false
  end.

End Common.

(** ** caproto/curio/high_level_server.py *)

Module Server.

(** *** Callables as [inspect] sees them *)

Inductive param_kind : Type :=
  | POSITIONAL_ONLY | POSITIONAL_OR_KEYWORD | VAR_POSITIONAL
  | KEYWORD_ONLY | VAR_KEYWORD.

Record sig_param : Type := mk_sig_param {
  param_name : string;
  kind : param_kind;
  has_default : bool
}.

(** What [PVSpec.__new__] observes of a getter or putter: the answer of
    [inspect.iscoroutinefunction] and the parameters of
    [inspect.signature]. *)
Record callable : Type := mk_callable {
  fn_name : string;
  iscoroutinefunction : bool;
  signature : list sig_param
}.

(** The parameters a call may leave unbound: [*args], [**kwargs] and
    those with a default. *)
Definition optional (p : sig_param) : bool :=
  match kind p with
  | VAR_POSITIONAL | VAR_KEYWORD => true
  | _ => has_default p
  end.

(** [sig.bind(a1, ..., an)] with positional arguments only, following
    [inspect.Signature._bind]: each argument takes the next positional
    parameter; [*args] takes all that remain; an argument that meets a
    keyword-only parameter, [**kwargs] or no parameter at all is one too
    many; once the arguments are used up, every parameter left must be
    optional. [true] when the call binds, [false] when [bind] raises
    [TypeError]. *)
Fixpoint bind (params : list sig_param) (nargs : nat) {struct nargs} : bool :=
  match nargs with
  | O => forallb optional params
  | S n =>
      match params with
      | [] => false
      | p :: ps =>
          match kind p with
          | POSITIONAL_ONLY | POSITIONAL_OR_KEYWORD => bind ps n
          | VAR_POSITIONAL => forallb optional ps
          | KEYWORD_ONLY | VAR_KEYWORD => false
          end
      end
  end.

(** *** PVSpec *)

Record PVSpec : Type := mk_PVSpec {
  get : option callable;
  put : option callable;
  attr : option string;
  name : option string;
  dtype : pytype;
  value : pyval;
  alarm_group : option string
}.

Definition default_dtype : pytype := ty_int.

(** [assert c, msg] *)
Definition assert (c : bool) : result unit :=
  if c then Ok () else Raise AssertionError.

(** The [dtype is None] block of [PVSpec.__new__]. *)
Definition infer_dtype (dtype_arg : option pytype) (value_arg : pyval)
    : result pytype :=
  match dtype_arg with
  | Some d => Ok d
  | None =>
      match value_arg with
      | VNone => Ok default_dtype
      | _ => v0 ← getitem0 value_arg; Ok (type_of v0)
      end
  end.

(** The [get is not None] and [put is not None] blocks: the assertion on
    [iscoroutinefunction], then [sig.bind] on [nargs] placeholder
    arguments, whose failure is re-raised as [RuntimeError]. *)
Definition check_accessor (f : option callable) (nargs : nat) : result unit :=
  match f with
  | None => Ok ()
  | Some c =>
      _ ← assert (iscoroutinefunction c);
      if bind (signature c) nargs then Ok () else Raise RuntimeError
  end.

(** [PVSpec.__new__(cls, get, put, attr, name, dtype, value, alarm_group)] *)
Definition PVSpec_new (get_arg put_arg : option callable)
    (attr_arg name_arg : option string) (dtype_arg : option pytype)
    (value_arg : pyval) (alarm_group_arg : option string) : result PVSpec :=
  d ← infer_dtype dtype_arg value_arg;
  _ ← check_accessor get_arg 2;
  _ ← check_accessor put_arg 3;
  Ok (mk_PVSpec get_arg put_arg attr_arg name_arg d value_arg alarm_group_arg).

(** [PVSpec.new_names(self, attr, name)] *)
Definition new_names (self : PVSpec) (attr_arg name_arg : option string)
    : result PVSpec :=
  let attr' := match attr_arg with None => attr self | Some a => Some a end in
  let name' := match name_arg with None => name self | Some n => Some n end in
  PVSpec_new (get self) (put self) attr' name' (Some (dtype self))
    (value self) (alarm_group self).

(** *** pvproperty *)

(** The keyword arguments [**spec_kw] a [pvproperty] forwards to [PVSpec]. *)
Record spec_kw : Type := mk_spec_kw {
  kw_attr : option string;
  kw_name : option string;
  kw_dtype : option pytype;
  kw_value : pyval;
  kw_alarm_group : option string
}.

Definition no_kw : spec_kw := mk_spec_kw None None None VNone None.

Record pvproperty : Type := mk_pvproperty {
  pv_attr_name : option string;
  pv_spec_kw : spec_kw;
  pvspec : PVSpec
}.

(** [pvproperty.__init__(self, get, put, **spec_kw)] *)
Definition pvproperty_init (get_arg put_arg : option callable) (kw : spec_kw)
    : result pvproperty :=
  s ← PVSpec_new get_arg put_arg (kw_attr kw) (kw_name kw) (kw_dtype kw)
        (kw_value kw) (kw_alarm_group kw);
  Ok (mk_pvproperty None kw s).

(** [pvproperty.__set_name__(self, owner, name)] *)
Definition pvproperty_set_name (self : pvproperty) (name_arg : string)
    : result pvproperty :=
  s ← new_names (pvspec self) (Some name_arg)
        (match name (pvspec self) with
         | Some n => Some n
         | None => Some name_arg
         end);
  Ok (mk_pvproperty (Some name_arg) (pv_spec_kw self) s).

(** [pvproperty.putter(self, put)] *)
Definition pvproperty_putter (self : pvproperty) (put_arg : option callable)
    : result pvproperty :=
  let s := pvspec self in
  s' ← PVSpec_new (get s) put_arg (attr s) (name s) (Some (dtype s))
         (value s) (alarm_group s);
  Ok (mk_pvproperty (pv_attr_name self) (pv_spec_kw self) s').

(** [pvproperty.__call__(self, get, put=None)] *)
Definition pvproperty_call (self : pvproperty)
    (get_arg put_arg : option callable) : result pvproperty :=
  let kw := pv_spec_kw self in
  s ← PVSpec_new get_arg put_arg (kw_attr kw) (kw_name kw) (kw_dtype kw)
        (kw_value kw) (kw_alarm_group kw);
  Ok (mk_pvproperty (pv_attr_name self) kw s).

(** *** SubGroup and the classes PVGroupMeta builds

    A class created by [PVGroupMeta] is known by its two tables,
    [_subgroups_] and [_pvs_], and by the [attr_separator] attribute of its
    body when it has one. A [SubGroup] descriptor refers to such a class,
    so the two types are mutually recursive. The classes modelled are the
    direct subclasses of [PVGroupBase]. *)

Inductive PVGroupClass : Type :=
  | mk_PVGroupClass (cls_name : string) (cls_attr_separator : option string)
      (subgroups_tbl : list (string * SubGroup))
      (pvs_tbl : list (string * pvproperty))
with SubGroup : Type :=
  | mk_SubGroup (attr_name : option string) (cls : option PVGroupClass)
      (prefix_opt : option string) (macros : gmap string string)
      (separator : string).

Definition cls_attr_separator (c : PVGroupClass) : option string :=
  match c with mk_PVGroupClass _ sep _ _ => sep end.
Definition _subgroups_ (c : PVGroupClass) : list (string * SubGroup) :=
  match c with mk_PVGroupClass _ _ subs _ => subs end.
Definition _pvs_ (c : PVGroupClass) : list (string * pvproperty) :=
  match c with mk_PVGroupClass _ _ _ pvs => pvs end.

Definition group_cls (s : SubGroup) : option PVGroupClass :=
  match s with mk_SubGroup _ c _ _ _ => c end.
Definition sg_prefix (s : SubGroup) : option string :=
  match s with mk_SubGroup _ _ p _ _ => p end.
Definition sg_macros (s : SubGroup) : gmap string string :=
  match s with mk_SubGroup _ _ _ m _ => m end.
Definition sg_attr_separator (s : SubGroup) : string :=
  match s with mk_SubGroup _ _ _ _ sep => sep end.

(** [SubGroup.__init__(self, group_cls, prefix, macros, attr_separator)] *)
Definition SubGroup_init (group_cls_arg : option PVGroupClass)
    (prefix_arg : option string) (macros_arg : option (gmap string string))
    (attr_separator_arg : option string) : SubGroup :=
  mk_SubGroup None group_cls_arg prefix_arg
    (match macros_arg with Some m => m | None => ∅ end)
    (match attr_separator_arg with
     | Some s => s
     | None =>
         match group_cls_arg with
         | Some c =>
             match cls_attr_separator c with Some s => s | None => ":" end
         | None => ":"
         end
     end).

(** [SubGroup.__set_name__(self, owner, name)] *)
Definition SubGroup_set_name (self : SubGroup) (name_arg : string) : SubGroup :=
  match self with
  | mk_SubGroup _ c p m sep =>
      mk_SubGroup (Some name_arg) c
        (match p with None => Some (name_arg +:+ sep) | Some _ => p end) m sep
  end.

(** [SubGroup.__call__(self, group_cls)] *)
Definition SubGroup_call (self : SubGroup) (c : PVGroupClass) : SubGroup :=
  match self with
  | mk_SubGroup a _ p m sep => mk_SubGroup a (Some c) p m sep
  end.

(** A value bound in a class body. *)
Inductive class_attr : Type :=
  | A_pvproperty (p : pvproperty)
  | A_SubGroup (s : SubGroup)
  | A_other (v : pyval).

(** [attr.startswith('_')] *)
Definition startswith_underscore (a : string) : bool := String.prefix "_" a.

(** *** PVGroupMeta *)

(** [PVGroupMeta.find_subgroups(dct)], the items it yields. *)
Fixpoint find_subgroups (dct : list (string * class_attr))
    : list (string * SubGroup) :=
  match dct with
  | [] => []
  | (a, v) :: rest =>
      if startswith_underscore a then find_subgroups rest
      else
        match v with
        | A_SubGroup s => (a, s) :: find_subgroups rest
        | _ => find_subgroups rest
        end
  end.

(** [PVGroupMeta.find_pvproperties(dct)], the items it yields;
    [value.group_cls._pvs_] raises [AttributeError] for a [SubGroup] that
    has no class. *)
Fixpoint find_pvproperties (dct : list (string * class_attr))
    : result (list (string * pvproperty)) :=
  match dct with
  | [] => Ok []
  | (a, v) :: rest =>
      if startswith_underscore a then find_pvproperties rest
      else
        match v with
        | A_pvproperty p =>
            tl ← find_pvproperties rest; Ok ((a, p) :: tl)
        | A_SubGroup s =>
            match group_cls s with
            | None => Raise AttributeError
            | Some c =>
                tl ← find_pvproperties rest;
                Ok (map (fun sp => (dot_join a (fst sp), snd sp)) (_pvs_ c) ++ tl)
            end
        | A_other _ => find_pvproperties rest
        end
  end.

(** The first loop of [PVGroupMeta.__new__]: every subgroup found, each
    followed by the subgroups of its class under dotted names. *)
Definition collect_subgroups (found : list (string * SubGroup))
    : list (string * SubGroup) :=
  foldl (fun subgroups ap =>
           let subgroups := od_set (fst ap) (snd ap) subgroups in
           match group_cls (snd ap) with
           | Some c =>
               foldl (fun acc ss => od_set (dot_join (fst ap) (fst ss)) (snd ss) acc)
                 subgroups (_subgroups_ c)
           | None => subgroups
           end) [] found.

(** What [type.__new__] does to the class body: [__set_name__] on every
    descriptor, in order. Each entry of the body is an object of its own:
    a body that binds one descriptor object under two names, which Python
    would name twice as one object, is outside the bodies modelled. *)
Definition set_name (a : string) (v : class_attr) : result class_attr :=
  match v with
  | A_pvproperty p => A_pvproperty <$> pvproperty_set_name p a
  | A_SubGroup s => Ok (A_SubGroup (SubGroup_set_name s a))
  | A_other x => Ok (A_other x)
  end.

Fixpoint set_names (dct : list (string * class_attr))
    : result (list (string * class_attr)) :=
  match dct with
  | [] => Ok []
  | (a, v) :: rest =>
      v' ← set_name a v; rest' ← set_names rest; Ok ((a, v') :: rest')
  end.

(** [PVGroupMeta.__new__(metacls, name, bases, dct)] for [bases =
    (PVGroupBase,)]. The two tables hold the descriptor objects of the
    class body themselves, so the names that [type.__new__] sets afterwards
    are seen through the tables: the tables are read off the body with the
    names set. The first pass over the unnamed body keeps the order in
    which the source can fail. *)
Definition PVGroupMeta_new (name_arg : string)
    (dct : list (string * class_attr)) : result PVGroupClass :=
  _ ← find_pvproperties dct;
  named ← set_names dct;
  pvs ← find_pvproperties named;
  Ok (mk_PVGroupClass name_arg
        (match od_get "attr_separator" dct with
         | Some (A_other (VStr s)) => Some s
         | _ => None
         end)
        (collect_subgroups (find_subgroups named))
        (od_of_items pvs)).

(** *** Channel data and group instances *)

(** The three concrete classes [PvpropertyString], [PvpropertyInteger] and
    [PvpropertyDouble]. *)
Inductive pvproperty_cls : Type :=
  | PvpropertyString | PvpropertyInteger | PvpropertyDouble.

(** [PVGroupBase.type_map[dtype]] *)
Definition type_map (d : pytype) : result pvproperty_cls :=
  match d with
  | ty_str => Ok PvpropertyString
  | ty_int => Ok PvpropertyInteger
  | ty_float => Ok PvpropertyDouble
  | _ => Raise KeyError
  end.

(** [PVGroupBase.default_values[dtype]] *)
Definition default_values (d : pytype) : result pyval :=
  match d with
  | ty_str => Ok (VStr "-")
  | ty_int => Ok (VInt 0)
  | ty_float => Ok (VFloat 0)
  | _ => Raise KeyError
  end.

(** What a channel keeps of the group that owns it: the group is a cyclic
    reference in the source ([group.pvdb] holds the channel, the channel
    holds [group]); the channel reads only the expanded prefix and the
    macros through it, and calls its two generic methods. *)
Record GroupRef : Type := mk_GroupRef {
  ref_prefix : string;
  ref_macros : gmap string string
}.

(** A bound method stored in [getter] or [putter]:
    [MethodType(f, group)], [group.group_read] or [group.group_write]. *)
Inductive method : Type :=
  | MethodType (f : callable) (g : GroupRef)
  | group_read_of (g : GroupRef)
  | group_write_of (g : GroupRef).

(** An instance of a [PvpropertyData] subclass. [alarm] is the key of the
    group's [alarms] table whose [ChannelAlarm] the instance shares. *)
Record PvpropertyData : Type := mk_PvpropertyData {
  data_cls : pvproperty_cls;
  group : GroupRef;
  data_pvspec : PVSpec;
  getter : method;
  putter : method;
  data_value : pyval;
  alarm : option string
}.

(** [PvpropertyData.__init__(self, *, group, pvspec, **kwargs)] with
    [kwargs = {value, alarm}]. *)
Definition PvpropertyData_init (c : pvproperty_cls) (g : GroupRef)
    (s : PVSpec) (v : pyval) (al : option string) : PvpropertyData :=
  mk_PvpropertyData c g s
    (match get s with
     | Some f => MethodType f g
     | None => group_read_of g
     end)
    (match put s with
     | Some f => MethodType f g
     | None => group_write_of g
     end)
    v al.

(** A group instance: [macros], [prefix], [pvdb], [attr_pvdb], [groups]. *)
Inductive PVGroup : Type :=
  | mk_PVGroup (macros : gmap string string) (prefix_str : string)
      (pvdb_tbl attr_pvdb_tbl : list (string * PvpropertyData))
      (groups_tbl : list (string * PVGroup)).

Definition g_macros (g : PVGroup) : gmap string string :=
  match g with mk_PVGroup m _ _ _ _ => m end.
Definition g_prefix (g : PVGroup) : string :=
  match g with mk_PVGroup _ p _ _ _ => p end.
Definition pvdb (g : PVGroup) : list (string * PvpropertyData) :=
  match g with mk_PVGroup _ _ d _ _ => d end.
Definition attr_pvdb (g : PVGroup) : list (string * PvpropertyData) :=
  match g with mk_PVGroup _ _ _ d _ => d end.
Definition groups (g : PVGroup) : list (string * PVGroup) :=
  match g with mk_PVGroup _ _ _ _ gs => gs end.

Definition ref_of (g : PVGroup) : GroupRef :=
  mk_GroupRef (g_prefix g) (g_macros g).

(** *** Logging and coroutines

    A coroutine of the module is run to completion: its result is the
    records it logged, in order, and the value it returned or the
    exception it raised. *)

Inductive log_arg : Type :=
  | arg_spec (s : PVSpec)
  | arg_val (v : pyval)
  | arg_attr (a : option string).

Record log_record : Type := debug {
  log_format : string;
  log_args : list log_arg
}.

Definition Co (A : Type) : Type := (list log_record * result A)%type.

Definition co_ret {A : Type} (a : A) : Co A := ([], Ok a).

Definition co_bind {A B : Type} (m : Co A) (k : A -> Co B) : Co B :=
  match m with
  | (l, Ok a) => let r := k a in (l ++ fst r, snd r)
  | (l, Raise e) => (l, Raise e)
  end.

(** [logger.debug(fmt, *args)] *)
Definition logger_debug (fmt : string) (args : list log_arg) : Co unit :=
  ([debug fmt args], Ok ()).

(** [PVGroupBase.group_read(self, instance)] *)
Definition group_read (self : GroupRef) (instance : PvpropertyData)
    : Co pyval :=
  co_bind (logger_debug "no-op group read of %s"
             [arg_attr (attr (data_pvspec instance))])
    (fun _ => co_ret VNone).

(** [PVGroupBase.group_write(self, instance, value)] *)
Definition group_write (self : GroupRef) (instance : PvpropertyData)
    (value_arg : pyval) : Co pyval :=
  co_bind (logger_debug "group write of %s = %s"
             [arg_attr (attr (data_pvspec instance)); arg_val value_arg])
    (fun _ => co_ret value_arg).

Section Runtime.

(** [str.format(template, **macros)], Python's own. *)
Variable str_format : string -> gmap string string -> result string.

(** The body of a user's [async def put(group, instance, value)]. *)
Variable call_put :
  callable -> GroupRef -> PvpropertyData -> pyval -> Co pyval.

(** [expand_macros(pv, macros)] *)
Definition expand_macros (pv : string) (macros : gmap string string)
    : result string :=
  str_format pv macros.

(** [self.putter(self, value)] *)
Definition call_putter (m : method) (instance : PvpropertyData)
    (value_arg : pyval) : Co pyval :=
  match m with
  | MethodType f g => call_put f g instance value_arg
  | group_write_of g => group_write g instance value_arg
  | group_read_of g => ([], Raise TypeError)
  end.

(** [PvpropertyData.verify_value(self, value)] *)
Definition verify_value (self : PvpropertyData) (value_arg : pyval)
    : Co pyval :=
  co_bind
    (match put (data_pvspec self) with
     | None =>
         logger_debug "group verify value for %s: %r"
           [arg_spec (data_pvspec self); arg_val value_arg]
     | Some _ =>
         logger_debug "verify value for %s: %r"
           [arg_spec (data_pvspec self); arg_val value_arg]
     end)
    (fun _ => call_putter (putter self) self value_arg).

(** [channeldata_from_pvspec(group, pvspec)]; [group.prefix +
    pvspec.name] raises [TypeError] when the name is [None]. *)
Definition channeldata_from_pvspec (g : GroupRef) (s : PVSpec)
    : result (string * PvpropertyData) :=
  nm ← match name s with Some n => Ok n | None => Raise TypeError end;
  full_pvname ← expand_macros (ref_prefix g +:+ nm) (ref_macros g);
  v ← match value s with
      | VNone => default_values (dtype s)
      | v => Ok v
      end;
  c ← type_map (dtype s);
  Ok (full_pvname, PvpropertyData_init c g s v (alarm_group s)).

(** The second loop of [_create_pvdb]: [self] and [groups] are fixed,
    [pvdb] and [attr_pvdb] grow. *)
Fixpoint create_channels (self : GroupRef)
    (groups_tbl : list (string * PVGroup))
    (pvs : list (string * pvproperty))
    (db attr_db : list (string * PvpropertyData))
    : result (list (string * PvpropertyData)
              * list (string * PvpropertyData)) :=
  match pvs with
  | [] => Ok (db, attr_db)
  | (a, pvprop) :: rest =>
      g ← match rsplit_dot a with
          | Some (group_attr, _) =>
              match od_get group_attr groups_tbl with
              | Some sub => Ok (ref_of sub)
              | None => Raise KeyError
              end
          | None => Ok self
          end;
      nc ← channeldata_from_pvspec g (pvspec pvprop);
      create_channels self groups_tbl rest
        (od_set (fst nc) (snd nc) db) (od_set a (snd nc) attr_db)
  end.

(** [PVGroupBase.__init__(self, prefix, macros)] followed by
    [_create_pvdb]: the first loop instantiates the class of every
    subgroup, which runs this constructor again on that class. *)
Fixpoint PVGroupBase_init (c : PVGroupClass) (prefix_arg : string)
    (macros_arg : gmap string string) {struct c} : result PVGroup :=
  match c with
  | mk_PVGroupClass _ _ subgroups pvs =>
      p ← expand_macros prefix_arg macros_arg;
      gs ← (fix create_groups (subs : list (string * SubGroup))
                (acc : list (string * PVGroup)) {struct subs}
                : result (list (string * PVGroup)) :=
              match subs with
              | [] => Ok acc
              | (a, sg) :: rest =>
                  match sg with
                  | mk_SubGroup _ sub_cls sub_prefix sub_macros _ =>
                      match sub_prefix, sub_cls with
                      | Some sp, Some sc =>
                          g ← PVGroupBase_init sc (p +:+ sp)
                                (sub_macros ∪ macros_arg);
                          create_groups rest (od_set a g acc)
                      | _, _ => Raise TypeError
                      end
                  end
              end) subgroups [];
      dbs ← create_channels (mk_GroupRef p macros_arg) gs pvs [] [];
      Ok (mk_PVGroup macros_arg p (fst dbs) (snd dbs) gs)
  end.

End Runtime.

(** *** Sample accessors *)

Definition positional (n : string) : sig_param :=
  mk_sig_param n POSITIONAL_OR_KEYWORD false.

(** [async def getter(group, instance)] *)
Definition async_getter : callable :=
  mk_callable "getter" true [positional "group"; positional "instance"].

(** [async def putter(group, instance, value)] *)
Definition async_putter : callable :=
  mk_callable "putter" true
    [positional "group"; positional "instance"; positional "value"].

(** [def getter(group, instance)], not a coroutine function *)
Definition plain_getter : callable :=
  mk_callable "getter" false [positional "group"; positional "instance"].

(** [def putter(group, instance, value)], not a coroutine function *)
Definition plain_putter : callable :=
  mk_callable "putter" false
    [positional "group"; positional "instance"; positional "value"].

(** [async def getter(group)], one parameter short *)
Definition short_getter : callable :=
  mk_callable "getter" true [positional "group"].

(** [async def putter(group, instance)], one parameter short *)
Definition short_putter : callable :=
  mk_callable "putter" true [positional "group"; positional "instance"].

(** *** A reading of [str.format] for templates with plain fields

    [{{] and [}}] are literal braces, [{name}] is replaced by
    [macros[name]] ([KeyError] when absent), [{}] asks for a positional
    argument and there is none ([IndexError]), a lone [}], an unclosed [{]
    or a [{] inside a field is rejected with [ValueError]. Templates whose
    fields carry conversions, format specs, indexing or numbers are outside
    this reading. *)
Fixpoint format_fields (field : option string) (s : string)
    (macros : gmap string string) : result string :=
  match s with
  | EmptyString =>
      match field with None => Ok EmptyString | Some _ => Raise ValueError end
  | String ch rest =>
      match field with
      | Some nm =>
          if decide (ch = "}"%char) then
            match nm with
            | EmptyString => Raise IndexError
            | _ =>
                match macros !! nm with
                | Some v => String.append v <$> format_fields None rest macros
                | None => Raise KeyError
                end
            end
          else if decide (ch = "{"%char) then Raise ValueError
          else format_fields (Some (nm +:+ String ch EmptyString)) rest macros
      | None =>
          if decide (ch = "{"%char) then
            match rest with
            | String "{"%char rest' =>
                String "{"%char <$> format_fields None rest' macros
            | _ => format_fields (Some EmptyString) rest macros
            end
          else if decide (ch = "}"%char) then
            match rest with
            | String "}"%char rest' =>
                String "}"%char <$> format_fields None rest' macros
            | _ => Raise ValueError
            end
          else String ch <$> format_fields None rest macros
      end
  end.

Definition plain_format (s : string) (macros : gmap string string)
    : result string :=
  format_fields None s macros.

(** *** What a class body declares *)

(** The attribute names under which a class body makes PVs public, in
    order: a pvproperty under its own name, a pvproperty of the class of a
    SubGroup under the dotted name; names that start with an underscore
    are private. *)
Fixpoint declared_attrs (dct : list (string * class_attr)) : list string :=
  match dct with
  | [] => []
  | (a, v) :: rest =>
      if startswith_underscore a then declared_attrs rest
      else
        match v with
        | A_pvproperty _ => a :: declared_attrs rest
        | A_SubGroup s =>
            match group_cls s with
            | Some c =>
                map (dot_join a) (od_keys (_pvs_ c)) ++ declared_attrs rest
            | None => declared_attrs rest
            end
        | A_other _ => declared_attrs rest
        end
  end.

(** The attribute names under which a class body makes subgroups known,
    in order: each public SubGroup under its own name, followed by the
    subgroups of its class under dotted names. *)
Fixpoint declared_subgroups (dct : list (string * class_attr)) : list string :=
  match dct with
  | [] => []
  | (a, v) :: rest =>
      if startswith_underscore a then declared_subgroups rest
      else
        match v with
        | A_SubGroup s =>
            (a :: match group_cls s with
                  | Some c => map (dot_join a) (od_keys (_subgroups_ c))
                  | None => []
                  end) ++ declared_subgroups rest
        | _ => declared_subgroups rest
        end
  end.

(** The number of pvproperties a class body declares, whatever their
    names: its own and those its SubGroups contribute. *)
Fixpoint declared_pvproperties (dct : list (string * class_attr)) : nat :=
  match dct with
  | [] => 0
  | (_, v) :: rest =>
      match v with
      | A_pvproperty _ => S (declared_pvproperties rest)
      | A_SubGroup s =>
          match group_cls s with
          | Some c => length (_pvs_ c) + declared_pvproperties rest
          | None => declared_pvproperties rest
          end
      | A_other _ => declared_pvproperties rest
      end
  end.

(** The full PV name of a channel: its group's prefix and its PVSpec's
    name, with the group's macros expanded, as
    [channeldata_from_pvspec] computes it. *)
Definition full_pvname
    (str_format : string -> gmap string string -> result string)
    (d : PvpropertyData) : result string :=
  match name (data_pvspec d) with
  | Some n =>
      expand_macros str_format (ref_prefix (group d) +:+ n)
        (ref_macros (group d))
  | None => Raise TypeError
  end.

(** *** Sample class bodies *)

(** [pvproperty()] *)
Definition bare_pvproperty : pvproperty :=
  mk_pvproperty None no_kw (mk_PVSpec None None None None ty_int VNone None).

(** [pvproperty(name='x')] *)
Definition pvproperty_named_x : pvproperty :=
  mk_pvproperty None (mk_spec_kw None (Some "x") None VNone None)
    (mk_PVSpec None None None (Some "x") ty_int VNone None).

(** [_hidden = pvproperty()] then [x = pvproperty()] *)
Definition body_with_private : list (string * class_attr) :=
  [("_hidden", A_pvproperty bare_pvproperty); ("x", A_pvproperty bare_pvproperty)].

(** [a = pvproperty(name='x')] then [b = pvproperty(name='x')] *)
Definition body_with_same_name : list (string * class_attr) :=
  [("a", A_pvproperty pvproperty_named_x);
   ("b", A_pvproperty pvproperty_named_x)].

(** [x = pvproperty()] then [y = pvproperty()] *)
Definition body_xy : list (string * class_attr) :=
  [("x", A_pvproperty bare_pvproperty); ("y", A_pvproperty bare_pvproperty)].

(** The class built from [body_xy]. *)
Definition class_xy : PVGroupClass :=
  match PVGroupMeta_new "Inner" body_xy with
  | Ok c => c
  | Raise _ => mk_PVGroupClass "Inner" None [] []
  end.

(** [a = pvproperty()], [s = SubGroup(Inner)], [b = pvproperty()] *)
Definition body_with_subgroup : list (string * class_attr) :=
  [("a", A_pvproperty bare_pvproperty);
   ("s", A_SubGroup (SubGroup_init (Some class_xy) None None None));
   ("b", A_pvproperty bare_pvproperty)].

(** *** Descriptor access

    [instance.attr] on a group reaches [__get__] of the descriptor the
    class holds under [attr]; assignment and [del] reach [__set__] and
    [__delete__]. The tables are keyed by str: a descriptor that was never
    named would use the key [None], which they do not hold, so the two
    operations that write are defined for a named descriptor only. *)

(** [d[k]] *)
Definition od_getitem {V : Type} (k : string) (d : list (string * V))
    : result V :=
  match od_get k d with
  | Some v => Ok v
  | None => Raise KeyError
  end.

(** [del d[k]] *)
Fixpoint od_delitem {V : Type} (k : string) (d : list (string * V))
    : result (list (string * V)) :=
  match d with
  | [] => Raise KeyError
  | (k', v') :: rest =>
      if decide (k = k') then Ok rest
      else cons (k', v') <$> od_delitem k rest
  end.

(** What [pvproperty.__get__] returns: the PVSpec on the class, the
    channel on an instance. *)
Inductive pvproperty_value : Type :=
  | on_class (s : PVSpec)
  | on_instance (d : PvpropertyData).

(** [pvproperty.__get__(self, instance, owner)] *)
Definition pvproperty_get (self : pvproperty) (instance : option PVGroup)
    : result pvproperty_value :=
  match instance with
  | None => Ok (on_class (pvspec self))
  | Some g =>
      match pv_attr_name self with
      | Some a => on_instance <$> od_getitem a (attr_pvdb g)
      | None => Raise KeyError
      end
  end.

(** [pvproperty.__set__(self, instance, value)] for a named descriptor *)
Definition pvproperty_set (self : pvproperty) (instance : PVGroup)
    (value_arg : PvpropertyData) : option PVGroup :=
  match pv_attr_name self with
  | Some a =>
      Some (mk_PVGroup (g_macros instance) (g_prefix instance)
              (pvdb instance) (od_set a value_arg (attr_pvdb instance))
              (groups instance))
  | None => None
  end.

(** [pvproperty.__delete__(self, instance)] for a named descriptor *)
Definition pvproperty_delete (self : pvproperty) (instance : PVGroup)
    : option (result PVGroup) :=
  match pv_attr_name self with
  | Some a =>
      Some (db ← od_delitem a (attr_pvdb instance);
            Ok (mk_PVGroup (g_macros instance) (g_prefix instance)
                  (pvdb instance) db (groups instance)))
  | None => None
  end.

(** [SubGroup.__get__(self, instance, owner)] on an instance *)
Definition SubGroup_get (self : SubGroup) (instance : PVGroup)
    : result PVGroup :=
  match self with
  | mk_SubGroup (Some a) _ _ _ _ => od_getitem a (groups instance)
  | mk_SubGroup None _ _ _ _ => Raise KeyError
  end.

(** *** PVFunction

    The functions modelled are those whose parameters each carry a type
    annotation and a default value; [return_annotation] is a type, [None],
    or absent ([Signature.empty], a class and therefore true). *)

Inductive return_ann : Type :=
  | ret_empty
  | ret_None
  | ret_type (t : pytype).

Record fn_param : Type := mk_fn_param {
  par_name : string;
  annotation : pytype;
  par_default : pyval
}.

Record py_function : Type := mk_py_function {
  f_name : string;
  f_parameters : list fn_param;
  return_annotation : return_ann
}.

(** The names of the three additional PVs. *)
Record pvfunction_names : Type := mk_pvfunction_names {
  process_name : string;
  return_name : string;
  status_name : string
}.

Definition default_names : pvfunction_names :=
  mk_pvfunction_names "Process" "Retval" "Status".

Record PVFunction : Type := mk_PVFunction {
  pf_attr_name : option string;
  default_retval : pyval;
  func : option py_function;
  pf_alarm_group : option string;
  names : pvfunction_names;
  pf_pvspec : list PVSpec
}.

(** [PVFunction.__init__(self, func, default, alarm_group, process_name,
    return_name, status_name)] *)
Definition PVFunction_init (func_arg : option py_function)
    (default_arg : pyval) (alarm_group_arg : option string)
    (names_arg : pvfunction_names) : PVFunction :=
  mk_PVFunction None default_arg func_arg alarm_group_arg names_arg [].

(** [list(v)] for the sequences of [pyval]: the characters of a str, the
    bytes of a bytes object as ints, the items of a list or tuple. *)
Definition py_list (v : pyval) : result pyval :=
  match v with
  | VStr s =>
      Ok (VList (map (fun c => VStr (String c EmptyString))
                   (String.list_ascii_of_string s)))
  | VBytes bs => Ok (VList (map VInt bs))
  | VList xs | VTuple xs => Ok (VList xs)
  | VNone | VBool _ | VInt _ | VFloat _ => Raise TypeError
  end.

(** The [try: default[0]] block of [pvspec_from_parameter]: a default
    without [__getitem__] becomes a one-element list, any other failure of
    [default[0]] is a [ValueError], and a default that can be indexed is
    copied into a list. *)
Definition normalize_default (default_arg : pyval) : result pyval :=
  match getitem0 default_arg with
  | Ok _ => py_list default_arg
  | Raise TypeError => Ok (VList [default_arg])
  | Raise _ => Raise ValueError
  end.

(** [PVFunction.pvspec_from_parameter(self, param)], the [print] to
    standard output left aside; [attr_name] is the name of the descriptor,
    which [_update_pvspec] has checked to be set. *)
Definition pvspec_from_parameter (attr_name_arg : string)
    (alarm_group_arg : option string) (param : fn_param) : result PVSpec :=
  v ← normalize_default (par_default param);
  PVSpec_new None None
    (Some (attr_name_arg +:+ "." +:+ par_name param))
    (Some (attr_name_arg +:+ ":" +:+ par_name param))
    (Some (annotation param)) v alarm_group_arg.

Section Inspect.

(** The check [inspect.Parameter(name, kind=0, ...)] makes on [name]
    before it builds the parameter, Python's own. *)
Variable check_parameter_name : string -> result unit.

(** [inspect.Parameter(name, kind=0, default=default,
    annotation=annotation)] *)
Definition Parameter_new (name_arg : string) (default_arg : pyval)
    (annotation_arg : pytype) : result fn_param :=
  _ ← check_parameter_name name_arg;
  Ok (mk_fn_param name_arg annotation_arg default_arg).

(** [PVFunction.get_additional_parameters(self)]: [assert return_type],
    then the three parameters in order; the default of the last one is
    [PVGroupBase.default_values[return_type]], looked up before that
    parameter is built. *)
Definition get_additional_parameters (self : PVFunction) (f : py_function)
    : result (list fn_param) :=
  _ ← assert (match return_annotation f with
              | ret_None => false
              | ret_empty | ret_type _ => true
              end);
  p1 ← Parameter_new (process_name (names self)) (VInt 0) ty_int;
  p2 ← Parameter_new (status_name (names self))
         (VBytes [73; 110; 105; 116]%Z) ty_str;
  match return_annotation f with
  | ret_type t =>
      d ← default_values t;
      p3 ← Parameter_new (return_name (names self)) d t;
      Ok [p1; p2; p3]
  | ret_empty | ret_None => Raise KeyError
  end.

(** [for param in parameters: pvspec_from_parameter(param)] *)
Fixpoint pvspecs_from_parameters (attr_name_arg : string)
    (alarm_group_arg : option string) (params : list fn_param)
    : result (list PVSpec) :=
  match params with
  | [] => Ok []
  | param :: rest =>
      s ← pvspec_from_parameter attr_name_arg alarm_group_arg param;
      tl ← pvspecs_from_parameters attr_name_arg alarm_group_arg rest;
      Ok (s :: tl)
  end.

(** [PVFunction._update_pvspec(self)]: the list it returns, and the
    descriptor with the alarm group it may have set on the way. *)
Definition _update_pvspec (self : PVFunction)
    : result (PVFunction * list PVSpec) :=
  match func self, pf_attr_name self with
  | Some f, Some a =>
      let ag := match pf_alarm_group self with
                | None => Some (f_name f)
                | Some g => Some g
                end in
      let self' := mk_PVFunction (pf_attr_name self) (default_retval self)
                     (func self) ag (names self) (pf_pvspec self) in
      extra ← get_additional_parameters self' f;
      specs ← pvspecs_from_parameters a ag (tail (f_parameters f) ++ extra);
      Ok (self', specs)
  | _, _ => Ok (self, [])
  end.

(** [PVFunction.__set_name__(self, owner, name)] *)
Definition PVFunction_set_name (self : PVFunction) (name_arg : string)
    : result PVFunction :=
  let named := mk_PVFunction (Some name_arg) (default_retval self)
                 (func self) (pf_alarm_group self) (names self)
                 (pf_pvspec self) in
  r ← _update_pvspec named;
  Ok (mk_PVFunction (pf_attr_name (fst r)) (default_retval (fst r))
        (func (fst r)) (pf_alarm_group (fst r)) (names (fst r)) (snd r)).

(** [PVFunction.__call__(self, func)] *)
Definition PVFunction_call (self : PVFunction) (f : py_function)
    : result PVFunction :=
  let with_func := mk_PVFunction (pf_attr_name self) (default_retval self)
                     (Some f) (pf_alarm_group self) (names self)
                     (pf_pvspec self) in
  r ← _update_pvspec with_func;
  Ok (mk_PVFunction (pf_attr_name (fst r)) (default_retval (fst r))
        (func (fst r)) (pf_alarm_group (fst r)) (names (fst r)) (snd r)).

End Inspect.

(** *** Views used to state properties *)

(** The accessors of a channel are the ones [PvpropertyData.__init__]
    stores for its PVSpec and its group: the user's coroutine bound to the
    group, or the group's generic method. *)
Definition accessors_from_pvspec (d : PvpropertyData) : Prop :=
  getter d = match get (data_pvspec d) with
             | Some f => MethodType f (group d)
             | None => group_read_of (group d)
             end
  /\ putter d = match put (data_pvspec d) with
                | Some f => MethodType f (group d)
                | None => group_write_of (group d)
                end.

(** The first loop of [_create_pvdb] on its own, given the constructor
    [init] it runs on the class of each subgroup; [p] is the expanded
    prefix of the group and [macros_arg] its macros. *)
Definition create_groups
    (init : PVGroupClass -> string -> gmap string string -> result PVGroup)
    (p : string) (macros_arg : gmap string string)
    : list (string * SubGroup) -> list (string * PVGroup)
      -> result (list (string * PVGroup)) :=
  fix create_groups (subs : list (string * SubGroup))
      (acc : list (string * PVGroup)) {struct subs}
      : result (list (string * PVGroup)) :=
    match subs with
    | [] => Ok acc
    | (a, sg) :: rest =>
        match sg with
        | mk_SubGroup _ sub_cls sub_prefix sub_macros _ =>
            match sub_prefix, sub_cls with
            | Some sp, Some sc =>
                g ← init sc (p +:+ sp) (sub_macros ∪ macros_arg);
                create_groups rest (od_set a g acc)
            | _, _ => Raise TypeError
            end
        end
    end.

(** [async def move(self, position: float = 0.0, label: str = 'home') ->
    int]; the first parameter is [self], which [_update_pvspec] skips, so
    what is recorded for it is never read. *)
Definition sample_move : py_function :=
  mk_py_function "move"
    [ mk_fn_param "self" ty_NoneType VNone;
      mk_fn_param "position" ty_float (VFloat 0);
      mk_fn_param "label" ty_str (VStr "home") ]
    (ret_type ty_int).

(** A reading of the name check for ASCII names: a letter or an
    underscore, then letters, digits and underscores; anything else is
    rejected with [ValueError], and the empty name with the [IndexError]
    of [name[0]], at which the check looks first. *)
Definition ascii_identifier_start (c : ascii) : bool :=
  let n := nat_of_ascii c in
  (Nat.leb 65 n && Nat.leb n 90) || (Nat.leb 97 n && Nat.leb n 122)
  || Nat.eqb n 95.

Definition ascii_identifier_char (c : ascii) : bool :=
  let n := nat_of_ascii c in
  ascii_identifier_start c || (Nat.leb 48 n && Nat.leb n 57).

Definition ascii_parameter_name (n : string) : result unit :=
  match n with
  | String c rest =>
      if ascii_identifier_start c
         && forallb ascii_identifier_char (String.list_ascii_of_string rest)
      then Ok () else Raise ValueError
  | EmptyString => Raise IndexError
  end.

(** A class keeps its two tables in step when every dotted name of
    [_pvs_] has the text before its last dot among the names of
    [_subgroups_]: this is the key [_create_pvdb] looks up in
    [self.groups]. *)
Definition groups_closed (c : PVGroupClass) : Prop :=
  Forall (fun k => match rsplit_dot k with
                   | Some (group_attr, _) => group_attr ∈ od_keys (_subgroups_ c)
                   | None => True
                   end) (od_keys (_pvs_ c)).

(** [Outer]: the class built from [body_with_subgroup]. *)
Definition class_outer : PVGroupClass :=
  match PVGroupMeta_new "Outer" body_with_subgroup with
  | Ok c => c
  | Raise _ => mk_PVGroupClass "Outer" None [] []
  end.

(** [top = pvproperty()], [o = SubGroup(Outer)] *)
Definition body_nested : list (string * class_attr) :=
  [("top", A_pvproperty bare_pvproperty);
   ("o", A_SubGroup (SubGroup_init (Some class_outer) None None None))].

(** An instance of [class_xy] with prefix ["P:"] and no macros. *)
Definition instance_xy : PVGroup :=
  match PVGroupBase_init plain_format class_xy "P:" ∅ with
  | Ok inst => inst
  | Raise _ => mk_PVGroup ∅ "" [] [] []
  end.

(** The descriptor of [x = pvproperty()] once named [a]. *)
Definition pvproperty_at (a : string) : pvproperty :=
  mk_pvproperty (Some a) no_kw
    (mk_PVSpec None None (Some a) (Some a) ty_int VNone None).

End Server.

(** ** The client runtime the constants are for

    [common.py] holds the tunables and the error classes of the client;
    the classes that consume them (Context, SearchCache, Circuit, the
    subscription delivery path) are not part of the two modules above.
    Their behaviour is taken from the specification, sections 3, 4 and 6. *)

Module Client.

Inductive client_error : Type :=
  | NameNotFound | ConnectionError | HandshakeError
  | DisconnectedError | ChannelReadError | ContextDisconnectedError.

(** *** Configuration surface *)

Record Tunables : Type := mk_Tunables {
  min_retry_searches_interval : Q;
  max_retry_searches_interval : Q;
  search_retirement_age : Q;
  retry_retired_searches_interval : Q;
  restart_subs_period : Q;
  circuit_death_attempts : nat;
  event_add_batch_max_bytes : N;
  default_timeout : pyval
}.

(** The module-level values of [common.py]. *)
Definition module_defaults (environ : gmap string string) : Tunables :=
  mk_Tunables
    Common.MIN_RETRY_SEARCHES_INTERVAL
    Common.MAX_RETRY_SEARCHES_INTERVAL
    (inject_Z Common.SEARCH_RETIREMENT_AGE)
    (inject_Z Common.RETRY_RETIRED_SEARCHES_INTERVAL)
    Common.RESTART_SUBS_PERIOD
    Common.CIRCUIT_DEATH_ATTEMPTS
    Common.EVENT_ADD_BATCH_MAX_BYTES
    (Common.GLOBAL_DEFAULT_TIMEOUT environ).

(** The optional arguments of the Context constructor, one per tunable. *)
Record Overrides : Type := mk_Overrides {
  ov_min_retry_searches_interval : option Q;
  ov_max_retry_searches_interval : option Q;
  ov_search_retirement_age : option Q;
  ov_retry_retired_searches_interval : option Q;
  ov_restart_subs_period : option Q;
  ov_circuit_death_attempts : option nat;
  ov_event_add_batch_max_bytes : option N;
  ov_default_timeout : option pyval
}.


(** *** Circuit *)

Inductive circuit_state : Type :=
  | Unconnected | Connecting | Connected | Disconnecting | Disconnected
  | Dead.

#[global] Instance circuit_state_eq_dec : EqDecision circuit_state.
Proof. solve_decision. Defined.

(** A Circuit: its state, the number of consecutive failed attempts, the
    correlation ids still awaiting a response, and the number of
    connection attempts it has made so far. *)
Record Circuit : Type := mk_Circuit {
  state : circuit_state;
  failures : nat;
  pending : list nat;
  attempts : nat
}.

(** *** Context *)

Record Context : Type := mk_Context {
  config : Tunables;
  circuits : gmap (string * Z) Circuit
}.

(** Modelled from the spec: the Context constructor, which is missing from
    the source files; section 6 makes every numeric tunable overridable at
    Context construction, the module-level value being the default. *)
Definition Context_new (environ : gmap string string) (ov : Overrides)
    : Context :=
  let d := module_defaults environ in
  mk_Context
    (mk_Tunables
       (default (min_retry_searches_interval d)
          (ov_min_retry_searches_interval ov))
       (default (max_retry_searches_interval d)
          (ov_max_retry_searches_interval ov))
       (default (search_retirement_age d) (ov_search_retirement_age ov))
       (default (retry_retired_searches_interval d)
          (ov_retry_retired_searches_interval ov))
       (default (restart_subs_period d) (ov_restart_subs_period ov))
       (default (circuit_death_attempts d) (ov_circuit_death_attempts ov))
       (default (event_add_batch_max_bytes d)
          (ov_event_add_batch_max_bytes ov))
       (default (default_timeout d) (ov_default_timeout ov)))
    ∅.

(** *** SearchCache: backoff of unresolved names *)





(** *** Circuit lifecycle *)

Inductive circuit_event : Type :=
  | ev_connect | ev_handshake_complete | ev_attempt_failed
  | ev_socket_error | ev_cleanup_done | ev_reconnect.

(** What a step reports to the callers of the Circuit: each correlation id
    that was resolved, with the error it was resolved with. *)
Definition notices : Type := list (nat * client_error).

Definition fail_all (ids : list nat) : notices :=
  map (fun i => (i, DisconnectedError)) ids.

(** Modelled from the spec: the Circuit state machine of section 4.2,
    missing from the source files. [connect()] and a reconnect attempt
    enter [Connecting]; a completed handshake enters [Connected] and ends
    the run of failures; a failed attempt is counted, and the attempt that
    reaches the limit enters [Dead] and resolves every pending entry with
    [DisconnectedError]; a socket error enters [Disconnecting] and the end
    of cleanup enters [Disconnected], resolving every pending entry. An
    event that is not enabled in the current state, and every event on a
    dead Circuit, changes nothing. *)
Definition circuit_step (limit : nat) (ev : circuit_event) (c : Circuit)
    : Circuit * notices :=
  match state c, ev with
  | Unconnected, ev_connect
  | Disconnected, ev_reconnect =>
      (mk_Circuit Connecting (failures c) (pending c) (S (attempts c)), [])
  | Connecting, ev_handshake_complete =>
      (mk_Circuit Connected 0 (pending c) (attempts c), [])
  | Connecting, ev_attempt_failed =>
      let n := S (failures c) in
      if decide (limit <= n)%nat
      then (mk_Circuit Dead n [] (attempts c), fail_all (pending c))
      else (mk_Circuit Disconnected n (pending c) (attempts c), [])
  | Connected, ev_socket_error =>
      (mk_Circuit Disconnecting (failures c) (pending c) (attempts c), [])
  | Disconnecting, ev_cleanup_done =>
      (mk_Circuit Disconnected (failures c) [] (attempts c),
       fail_all (pending c))
  | _, _ => (c, [])
  end.

Fixpoint circuit_run (limit : nat) (evs : list circuit_event) (c : Circuit)
    : Circuit * notices :=
  match evs with
  | [] => (c, [])
  | ev :: rest =>
      let r := circuit_step limit ev c in
      let r' := circuit_run limit rest (fst r) in
      (fst r', snd r ++ snd r')
  end.

(** Modelled from the spec: [send(command)] on a Circuit, missing from the
    source files; it fails with [DisconnectedError] unless the Circuit is
    [Connected] (section 4.2). The new request is recorded under the
    correlation id [ioid]. *)
Definition send (ioid : nat) (c : Circuit) : client_error + Circuit :=
  match state c with
  | Connected =>
      inr (mk_Circuit Connected (failures c) (pending c ++ [ioid])
             (attempts c))
  | _ => inl DisconnectedError
  end.

(** Modelled from the spec: the Context's handling of a Circuit event,
    missing from the source files; the Circuit registered under the
    address takes the step, and a Circuit that became [Dead] is evicted
    from the registry (section 4.2). *)
Definition context_step (ev : circuit_event) (a : string * Z) (ctx : Context)
    : Context * notices :=
  match circuits ctx !! a with
  | None => (ctx, [])
  | Some c =>
      let r := circuit_step (circuit_death_attempts (config ctx)) ev c in
      (mk_Context (config ctx)
         (if decide (state (fst r) = Dead)
          then delete a (circuits ctx)
          else <[a := fst r]> (circuits ctx)),
       snd r)
  end.

Fixpoint context_run (evs : list circuit_event) (a : string * Z)
    (ctx : Context) : Context * notices :=
  match evs with
  | [] => (ctx, [])
  | ev :: rest =>
      let r := context_step ev a ctx in
      let r' := context_run rest a (fst r) in
      (fst r', snd r ++ snd r')
  end.

(** [n] consecutive failed attempts on a Circuit that is not connected
    yet: the first is a [connect()], the others are reconnect attempts. *)
Fixpoint failed_reconnects (n : nat) : list circuit_event :=
  match n with
  | O => []
  | S k => ev_reconnect :: ev_attempt_failed :: failed_reconnects k
  end.

Definition failed_attempts (n : nat) : list circuit_event :=
  match n with
  | O => []
  | S k => ev_connect :: ev_attempt_failed :: failed_reconnects k
  end.

(** [n] consecutive failed attempts on a Circuit as it stands: a Circuit
    that was never connected starts with [connect()], one that lost its
    connection with a reconnect attempt. *)
Definition failed_attempts_on (c : Circuit) (n : nat) : list circuit_event :=
  match state c with
  | Unconnected => failed_attempts n
  | _ => failed_reconnects n
  end.

(** *** Subscription delivery *)








End Client.

(** * Properties *)

(** ** The module namespace of common.py *)

Section CommonFacts.
Import Common.
Variable environ : gmap string string.

(** Importing the module never fails, whatever the environment holds. *)
Lemma import_module_ok : exists st, import_module environ = Ok st.
Proof. eexists. vm_compute. reflexivity. Qed.

(** The class object first bound to [ChannelReadError] (the definition
    at the top of the file, class 2) derives from [Exception] only. *)
Lemma first_ChannelReadError_not_client st :
  import_module environ = Ok st ->
  classes st !! 2%nat = Some (mk_pyclass "ChannelReadError" [2; 1; 0]%nat)
  /\ globals st !! "ClientException" = Some (OClass 3)
  /\ issubclass st 2 3 = false.
Proof.
  intros H. vm_compute in H. injection H as <-.
  repeat split; vm_compute; reflexivity.
Qed.

(** C2: at the end of the module, the names [ChannelReadError],
    [DisconnectedError] and [ContextDisconnectedError] are bound to
    subclasses of the class bound to [ClientException]; the binding of
    [ChannelReadError] is the class of the second definition (class 4,
    whose MRO passes through [ClientException], class 3). *)
Theorem client_errors_derive_from_ClientException :
  exists st,
    import_module environ = Ok st
    /\ name_issubclass st "ChannelReadError" "ClientException" = true
    /\ name_issubclass st "DisconnectedError" "ClientException" = true
    /\ name_issubclass st "ContextDisconnectedError" "ClientException" = true
    /\ globals st !! "ChannelReadError" = Some (OClass 4)
    /\ classes st !! 4%nat
       = Some (mk_pyclass "ChannelReadError" [4; 3; 1; 0]%nat).
Proof.
  eexists. split; [vm_compute; reflexivity |].
  repeat split; vm_compute; reflexivity.
Qed.

(** C10: [GLOBAL_DEFAULT_TIMEOUT] is the int 2 when
    [CAPROTO_DEFAULT_TIMEOUT] is not in the environment, and the str
    stored there, unconverted, when it is; this is the value the module
    binds to the name. *)
Theorem GLOBAL_DEFAULT_TIMEOUT_value :
  match environ !! "CAPROTO_DEFAULT_TIMEOUT" with
  | None => GLOBAL_DEFAULT_TIMEOUT environ = VInt 2
  | Some s => GLOBAL_DEFAULT_TIMEOUT environ = VStr s
  end
  /\ exists st,
      import_module environ = Ok st
      /\ globals st !! "GLOBAL_DEFAULT_TIMEOUT"
         = Some (OVal (GLOBAL_DEFAULT_TIMEOUT environ)).
Proof.
  split.
  - unfold GLOBAL_DEFAULT_TIMEOUT, environ_get.
    destruct (environ !! "CAPROTO_DEFAULT_TIMEOUT"); reflexivity.
  - eexists. split; vm_compute; reflexivity.
Qed.

End CommonFacts.

(** ** PVSpec *)

Section PVSpecFacts.
Import Server.

(** [PVSpec.__new__] runs three steps in order and stops at the first that
    raises: the dtype inference, the getter checks, the putter checks. *)
Lemma PVSpec_new_unfold g p a n d v ag :
  PVSpec_new g p a n d v ag =
  match infer_dtype d v with
  | Raise e => Raise e
  | Ok d' =>
      match check_accessor g 2 with
      | Raise e => Raise e
      | Ok _ =>
          match check_accessor p 3 with
          | Raise e => Raise e
          | Ok _ => Ok (mk_PVSpec g p a n d' v ag)
          end
      end
  end.
Proof. reflexivity. Qed.

(** The accessor checks pass exactly when the callable, if any, is a
    coroutine function whose signature binds the placeholder arguments. *)
Lemma check_accessor_ok f n :
  check_accessor f n = Ok () <->
  forall c, f = Some c -> iscoroutinefunction c = true /\ bind (signature c) n = true.
Proof.
  unfold check_accessor. destruct f as [c|]; simpl.
  - destruct (iscoroutinefunction c) eqn:Hc, (bind (signature c) n) eqn:Hb;
      simpl; split; intros H; try discriminate; try reflexivity.
    + intros c' [= <-]. auto.
    + destruct (H c eq_refl) as [_ ?]. congruence.
    + destruct (H c eq_refl) as [? _]. congruence.
    + destruct (H c eq_refl) as [? _]. congruence.
  - split; [intros _ c [=] | reflexivity].
Qed.

(** A callable that is not a coroutine function fails the assertion. *)
Lemma check_accessor_not_coroutine c n :
  iscoroutinefunction c = false -> check_accessor (Some c) n = Raise AssertionError.
Proof. unfold check_accessor. intros ->. reflexivity. Qed.

(** A coroutine function whose signature cannot bind the arguments is
    rejected with [RuntimeError]. *)
Lemma check_accessor_cannot_bind c n :
  iscoroutinefunction c = true -> bind (signature c) n = false ->
  check_accessor (Some c) n = Raise RuntimeError.
Proof. unfold check_accessor. intros -> ->. reflexivity. Qed.

(** [value[0]] on a value without [__getitem__] raises [TypeError]. *)
Lemma infer_dtype_not_subscriptable v :
  v <> VNone -> subscriptable v = false -> infer_dtype None v = Raise TypeError.
Proof. destruct v; simpl; try discriminate; try reflexivity. congruence. Qed.

(** With [dtype=None], the inferred dtype is [int] for [value=None] and
    [type(value[0])] otherwise. *)
Lemma infer_dtype_None_spec v d :
  infer_dtype None v = Ok d ->
  match v with
  | VNone => d = default_dtype
  | _ => exists v0, getitem0 v = Ok v0 /\ d = type_of v0
  end.
Proof.
  destruct v; simpl; try discriminate.
  - intros [= <-]. reflexivity.
  - destruct s; simpl; [discriminate|]. intros [= <-]. eauto.
  - destruct bs; simpl; [discriminate|]. intros [= <-]. eauto.
  - destruct xs; simpl; [discriminate|]. intros [= <-]. eauto.
  - destruct xs; simpl; [discriminate|]. intros [= <-]. eauto.
Qed.

(** C8: for a PVSpec constructed with [dtype=None] and accessors that
    pass their checks, the construction returns the PVSpec whose dtype is
    [int] (the [default_dtype]) when [value] is [None] and [type(value[0])]
    otherwise: the type of the first item of a list or tuple, [str] for a
    str, [int] for a bytes object. [value[0]] is not guarded: an empty
    sequence raises [IndexError], and a value that is not [None] and has no
    [__getitem__] makes the construction raise [TypeError], whatever the
    other arguments are. Whenever the construction returns, the dtype is
    the inferred one. *)
Theorem PVSpec_new_infers_dtype g p a n v ag :
  (check_accessor g 2 = Ok () -> check_accessor p 3 = Ok () ->
   match v with
   | VNone =>
       PVSpec_new g p a n None v ag = Ok (mk_PVSpec g p a n ty_int v ag)
   | VList (x :: _) | VTuple (x :: _) =>
       PVSpec_new g p a n None v ag = Ok (mk_PVSpec g p a n (type_of x) v ag)
   | VStr (String _ _) =>
       PVSpec_new g p a n None v ag = Ok (mk_PVSpec g p a n ty_str v ag)
   | VBytes (_ :: _) =>
       PVSpec_new g p a n None v ag = Ok (mk_PVSpec g p a n ty_int v ag)
   | VStr EmptyString | VBytes [] | VList [] | VTuple [] =>
       PVSpec_new g p a n None v ag = Raise IndexError
   | VBool _ | VInt _ | VFloat _ =>
       PVSpec_new g p a n None v ag = Raise TypeError
   end)
  /\ (forall spec, PVSpec_new g p a n None v ag = Ok spec ->
     match v with
     | VNone => dtype spec = ty_int
     | _ => exists v0, getitem0 v = Ok v0 /\ dtype spec = type_of v0
     end)
  /\ (v <> VNone -> subscriptable v = false ->
      PVSpec_new g p a n None v ag = Raise TypeError)
  /\ (check_accessor g 2 = Ok () -> check_accessor p 3 = Ok () ->
      forall d, infer_dtype None v = Ok d ->
      PVSpec_new g p a n None v ag = Ok (mk_PVSpec g p a n d v ag)).
Proof.
  split; [|repeat split].
  - intros Hg Hp. rewrite PVSpec_new_unfold.
    destruct v as [| | | |[|c s]|[|b bs]|[|x xs]|[|x xs]]; simpl;
      rewrite ?Hg, ?Hp; reflexivity.
  - intros spec. rewrite PVSpec_new_unfold.
    destruct (infer_dtype None v) as [d|] eqn:Hd; [|discriminate].
    destruct (check_accessor g 2); [|discriminate].
    destruct (check_accessor p 3); [|discriminate].
    intros [= <-]. simpl. apply infer_dtype_None_spec in Hd. exact Hd.
  - intros Hn Hs. rewrite PVSpec_new_unfold.
    rewrite (infer_dtype_not_subscriptable v Hn Hs). reflexivity.
  - intros Hg Hp d Hd. rewrite PVSpec_new_unfold, Hd, Hg, Hp. reflexivity.
Qed.

(** The dtype inference at concrete arguments: a list whose first item is
    a float, a str, a bytes object, an empty list, a scalar int, and no
    value. *)
Lemma PVSpec_new_infers_dtype_witness :
  PVSpec_new None None None None None (VList [VFloat 1; VInt 2]) None
  = Ok (mk_PVSpec None None None None ty_float (VList [VFloat 1; VInt 2]) None)
  /\ PVSpec_new (Some async_getter) None None None None (VStr "on") None
     = Ok (mk_PVSpec (Some async_getter) None None None ty_str (VStr "on")
             None)
  /\ PVSpec_new None None None None None (VBytes [73%Z]) None
     = Ok (mk_PVSpec None None None None ty_int (VBytes [73%Z]) None)
  /\ PVSpec_new None None None None None (VList []) None = Raise IndexError
  /\ PVSpec_new (Some async_getter) None None None None (VInt 5) None
     = Raise TypeError
  /\ PVSpec_new None (Some async_putter) None None None VNone None
     = Ok (mk_PVSpec None (Some async_putter) None None ty_int VNone None).
Proof.
  split; [| split; [| split; [| split; [| split]]]].
  - exact (proj1 (PVSpec_new_infers_dtype None None None None
                    (VList [VFloat 1; VInt 2]) None) eq_refl eq_refl).
  - exact (proj1 (PVSpec_new_infers_dtype (Some async_getter) None None None
                    (VStr "on") None) eq_refl eq_refl).
  - exact (proj1 (PVSpec_new_infers_dtype None None None None
                    (VBytes [73%Z]) None) eq_refl eq_refl).
  - exact (proj1 (PVSpec_new_infers_dtype None None None None
                    (VList []) None) eq_refl eq_refl).
  - apply (proj1 (proj2 (proj2 (PVSpec_new_infers_dtype (Some async_getter)
                                  None None None (VInt 5) None)))).
    + discriminate.
    + reflexivity.
  - exact (proj1 (PVSpec_new_infers_dtype None (Some async_putter) None None
                    VNone None) eq_refl eq_refl).
Defined.

(** The exceptions of the dtype inference are those of [value[0]]. *)
Lemma infer_dtype_raises d v e :
  infer_dtype d v = Raise e -> e = TypeError \/ e = IndexError.
Proof.
  destruct d as [t|]; simpl; [discriminate|].
  destruct v as [| | | |[|c s]|[|b bs]|[|x xs]|[|x xs]]; simpl;
    intros [= <-]; auto.
Qed.

(** The exceptions of the accessor checks, and what each one means. *)
Lemma check_accessor_raises f n e :
  check_accessor f n = Raise e ->
  exists c, f = Some c
    /\ ((e = AssertionError /\ iscoroutinefunction c = false)
        \/ (e = RuntimeError /\ iscoroutinefunction c = true
            /\ bind (signature c) n = false)).
Proof.
  unfold check_accessor. destruct f as [c|]; simpl; [|discriminate].
  exists c. split; [reflexivity|].
  destruct (iscoroutinefunction c); simpl in *.
  - destruct (bind (signature c) n); [discriminate|].
    injection H as <-. right. auto.
  - injection H as <-. left. auto.
Qed.

(** C7: a construction that succeeds has accessors that are each [None] or
    a coroutine function whose signature binds [(group, instance)] for the
    getter and [(group, instance, value)] for the putter. The dtype
    inference comes first and its exception, if any, is the one raised;
    then the getter is checked, then the putter, for each callable the
    coroutine assertion before the signature. Once the dtype is settled, a
    getter that is not a coroutine function gives [AssertionError] and a
    coroutine getter that cannot bind gives [RuntimeError]; once the getter
    has passed as well, the same holds for the putter, and if the putter
    passes too the PVSpec is returned. Conversely an [AssertionError] means
    that an accessor is not a coroutine function and a [RuntimeError] that
    the signature of a coroutine accessor cannot bind; no other exception
    comes from the accessors. *)
Theorem PVSpec_new_checks_accessors g p a n d v ag :
  (forall spec, PVSpec_new g p a n d v ag = Ok spec ->
     (forall c, g = Some c ->
        iscoroutinefunction c = true /\ bind (signature c) 2 = true)
     /\ (forall c, p = Some c ->
        iscoroutinefunction c = true /\ bind (signature c) 3 = true))
  /\ (forall d', infer_dtype d v = Ok d' ->
      (forall c, g = Some c -> iscoroutinefunction c = false ->
         PVSpec_new g p a n d v ag = Raise AssertionError)
      /\ (forall c, g = Some c -> iscoroutinefunction c = true ->
         bind (signature c) 2 = false ->
         PVSpec_new g p a n d v ag = Raise RuntimeError)
      /\ (check_accessor g 2 = Ok () ->
          (forall c, p = Some c -> iscoroutinefunction c = false ->
             PVSpec_new g p a n d v ag = Raise AssertionError)
          /\ (forall c, p = Some c -> iscoroutinefunction c = true ->
             bind (signature c) 3 = false ->
             PVSpec_new g p a n d v ag = Raise RuntimeError)
          /\ (check_accessor p 3 = Ok () ->
              PVSpec_new g p a n d v ag = Ok (mk_PVSpec g p a n d' v ag))))
  /\ (forall e, infer_dtype d v = Raise e ->
      PVSpec_new g p a n d v ag = Raise e)
  /\ (forall e, PVSpec_new g p a n d v ag = Raise e ->
      (infer_dtype d v = Raise e /\ (e = TypeError \/ e = IndexError))
      \/ (e = AssertionError
          /\ exists c, (g = Some c \/ p = Some c)
                       /\ iscoroutinefunction c = false)
      \/ (e = RuntimeError
          /\ ((exists c, g = Some c /\ iscoroutinefunction c = true
                         /\ bind (signature c) 2 = false)
              \/ (exists c, p = Some c /\ iscoroutinefunction c = true
                            /\ bind (signature c) 3 = false)))).
Proof.
  split; [|split; [|split]].
  - intros spec. rewrite PVSpec_new_unfold.
    destruct (infer_dtype d v); [|discriminate].
    destruct (check_accessor g 2) as [[]|] eqn:Hg; [|discriminate].
    destruct (check_accessor p 3) as [[]|] eqn:Hp; [|discriminate].
    intros _. split; apply check_accessor_ok; assumption.
  - intros d' Hd. rewrite PVSpec_new_unfold, Hd.
    split; [|split].
    + intros c -> Hc. rewrite (check_accessor_not_coroutine c 2 Hc). reflexivity.
    + intros c -> Hc Hb. rewrite (check_accessor_cannot_bind c 2 Hc Hb). reflexivity.
    + intros Hg. rewrite Hg. split; [|split].
      * intros c -> Hc. rewrite (check_accessor_not_coroutine c 3 Hc). reflexivity.
      * intros c -> Hc Hb. rewrite (check_accessor_cannot_bind c 3 Hc Hb). reflexivity.
      * intros Hp. rewrite Hp. reflexivity.
  - intros e He. rewrite PVSpec_new_unfold, He. reflexivity.
  - intros e. rewrite PVSpec_new_unfold.
    destruct (infer_dtype d v) as [d'|e'] eqn:Hd.
    + destruct (check_accessor g 2) as [[]|eg] eqn:Hg.
      * destruct (check_accessor p 3) as [[]|ep] eqn:Hp; [discriminate|].
        intros [= <-]. right.
        destruct (check_accessor_raises _ _ _ Hp)
          as (c & -> & [[-> Hc]|(-> & Hc & Hb)]).
        -- left. split; [reflexivity|]. exists c. auto.
        -- right. split; [reflexivity|]. right. exists c. auto.
      * intros [= <-]. right.
        destruct (check_accessor_raises _ _ _ Hg)
          as (c & -> & [[-> Hc]|(-> & Hc & Hb)]).
        -- left. split; [reflexivity|]. exists c. auto.
        -- right. split; [reflexivity|]. left. exists c. auto.
    + intros [= <-]. left. split; [reflexivity|].
      exact (infer_dtype_raises _ _ _ Hd).
Qed.

(** The accessor checks at the sample accessors, each in the position the
    theorem speaks of. *)
Lemma PVSpec_new_checks_accessors_witness :
  (iscoroutinefunction async_getter = true
   /\ bind (signature async_getter) 2 = true)
  /\ PVSpec_new (Some plain_getter) None None None None VNone None
     = Raise AssertionError
  /\ PVSpec_new (Some short_getter) None None None None VNone None
     = Raise RuntimeError
  /\ PVSpec_new (Some async_getter) (Some plain_putter) None None None VNone None
     = Raise AssertionError
  /\ PVSpec_new (Some async_getter) (Some short_putter) None None None VNone None
     = Raise RuntimeError
  /\ PVSpec_new (Some async_getter) (Some async_putter) None None None VNone None
     = Ok (mk_PVSpec (Some async_getter) (Some async_putter) None None ty_int
             VNone None)
  /\ PVSpec_new (Some plain_getter) None None None None (VInt 5) None
     = Raise TypeError.
Proof.
  split; [| split; [| split; [| split; [| split; [| split]]]]].
  - apply (proj1 (PVSpec_new_checks_accessors (Some async_getter)
                    (Some async_putter) None None None VNone None)
             (mk_PVSpec (Some async_getter) (Some async_putter) None None
                ty_int VNone None) eq_refl).
    reflexivity.
  - destruct (PVSpec_new_checks_accessors (Some plain_getter) None None None
                None VNone None) as (_ & H & _).
    destruct (H ty_int eq_refl) as (H1 & _).
    exact (H1 plain_getter eq_refl eq_refl).
  - destruct (PVSpec_new_checks_accessors (Some short_getter) None None None
                None VNone None) as (_ & H & _).
    destruct (H ty_int eq_refl) as (_ & H1 & _).
    exact (H1 short_getter eq_refl eq_refl eq_refl).
  - destruct (PVSpec_new_checks_accessors (Some async_getter)
                (Some plain_putter) None None None VNone None) as (_ & H & _).
    destruct (H ty_int eq_refl) as (_ & _ & H1).
    destruct (H1 eq_refl) as (H2 & _).
    exact (H2 plain_putter eq_refl eq_refl).
  - destruct (PVSpec_new_checks_accessors (Some async_getter)
                (Some short_putter) None None None VNone None) as (_ & H & _).
    destruct (H ty_int eq_refl) as (_ & _ & H1).
    destruct (H1 eq_refl) as (_ & H2 & _).
    exact (H2 short_putter eq_refl eq_refl eq_refl).
  - destruct (PVSpec_new_checks_accessors (Some async_getter)
                (Some async_putter) None None None VNone None) as (_ & H & _).
    destruct (H ty_int eq_refl) as (_ & _ & H1).
    destruct (H1 eq_refl) as (_ & _ & H2).
    exact (H2 eq_refl).
  - destruct (PVSpec_new_checks_accessors (Some plain_getter) None None None
                None (VInt 5) None) as (_ & _ & H & _).
    exact (H TypeError eq_refl).
Defined.

(** The order of the checks at concrete arguments: the dtype inference
    decides before the getter is looked at, and the getter before the
    putter. *)
Lemma PVSpec_new_first_failure :
  PVSpec_new (Some plain_getter) None None None None (VInt 5) None
  = Raise TypeError
  /\ PVSpec_new (Some short_getter) (Some plain_putter) None None None VNone
       None
     = Raise RuntimeError
  /\ PVSpec_new (Some plain_getter) (Some short_putter) None None None VNone
       None
     = Raise AssertionError.
Proof. repeat split. Qed.

End PVSpecFacts.

(** ** PvpropertyData *)

Section PvpropertyDataFacts.
Import Server.

(** [group_write] returns its [value] argument, for every value. *)
Lemma group_write_returns_value g inst v :
  snd (group_write g inst v) = Ok v.
Proof. reflexivity. Qed.

(** A channel that [channeldata_from_pvspec] creates keeps the PVSpec it
    was created from and the group it was created for, and its putter is
    the one [PvpropertyData.__init__] chooses from that PVSpec. *)
Lemma channeldata_from_pvspec_putter str_format g s nm d :
  channeldata_from_pvspec str_format g s = Ok (nm, d) ->
  data_pvspec d = s /\ group d = g
  /\ putter d = match put s with
                | Some f => MethodType f g
                | None => group_write_of g
                end.
Proof.
  unfold channeldata_from_pvspec.
  destruct (name s); simpl; [|discriminate].
  destruct (expand_macros _ _ _); simpl; [|discriminate].
  destruct (match value s with VNone => default_values (dtype s) | _ => _ end);
    simpl; [|discriminate].
  destruct (type_map (dtype s)); simpl; [|discriminate].
  intros [= <- <-]. repeat split.
Qed.

(** C9: for a channel whose PVSpec has [put=None], the constructor stores
    [group.group_write] as the putter, [verify_value(value)] calls it, and
    the value it returns is [value] itself; the two debug records are the
    only other effect. *)
Theorem verify_value_without_put_is_identity
    (call_put : callable -> GroupRef -> PvpropertyData -> pyval -> Co pyval)
    (c : pvproperty_cls) (g : GroupRef) (s : PVSpec) (v0 : pyval)
    (al : option string) (v : pyval)
    (Hput : put s = None) :
  let self := PvpropertyData_init c g s v0 al in
  putter self = group_write_of g
  /\ call_putter call_put (putter self) self v = group_write g self v
  /\ snd (verify_value call_put self v) = Ok v
  /\ fst (verify_value call_put self v)
     = [debug "group verify value for %s: %r" [arg_spec s; arg_val v];
        debug "group write of %s = %s" [arg_attr (attr s); arg_val v]].
Proof.
  intros self. subst self. unfold PvpropertyData_init, verify_value. simpl.
  rewrite Hput. simpl. repeat split.
Qed.

(** An int channel without putter: verifying 42 gives 42, and the user
    callback is never consulted. *)
Lemma verify_value_without_put_is_identity_witness :
  put (mk_PVSpec None None (Some "x") (Some "x") ty_int VNone None) = None
  /\ snd (verify_value (fun _ _ _ _ => ([], Raise RuntimeError))
            (PvpropertyData_init PvpropertyInteger (mk_GroupRef "P:" ∅)
               (mk_PVSpec None None (Some "x") (Some "x") ty_int VNone None)
               (VInt 0) None)
            (VInt 42)) = Ok (VInt 42).
Proof.
  split; [reflexivity |].
  apply (verify_value_without_put_is_identity
           (fun _ _ _ _ => ([], Raise RuntimeError))
           PvpropertyInteger (mk_GroupRef "P:" ∅)
           (mk_PVSpec None None (Some "x") (Some "x") ty_int VNone None)
           (VInt 0) None (VInt 42) eq_refl).
Defined.

End PvpropertyDataFacts.

(** ** OrderedDict *)

Section OrderedDictFacts.
Context {V : Type}.

(** Assigning to a key keeps the keys when the key is present and appends
    it otherwise. *)
Lemma od_keys_od_set (k : string) (v : V) (d : list (string * V)) :
  od_keys (od_set k v d)
  = if decide (k ∈ od_keys d) then od_keys d else od_keys d ++ [k].
Proof.
  induction d as [|[k' v'] d IH]; simpl.
  - destruct (decide (k ∈ [])) as [H|H]; [inversion H | reflexivity].
  - destruct (decide (k = k')) as [->|Hne]; simpl.
    + destruct (decide (k' ∈ k' :: od_keys d)) as [|H]; [reflexivity|].
      exfalso. apply H. left.
    + unfold od_keys in *. rewrite IH.
      destruct (decide (k ∈ map fst d)) as [Hin|Hin];
        destruct (decide (k ∈ k' :: map fst d)) as [Hin'|Hin']; try reflexivity.
      * exfalso. apply Hin'. right. exact Hin.
      * exfalso. apply elem_of_cons in Hin' as [?|?]; [congruence | contradiction].
Qed.

(** The keys after a run of assignments. *)
Lemma od_keys_foldl (items : list (string * V)) (d : list (string * V)) :
  od_keys (foldl (fun d kv => od_set (fst kv) (snd kv) d) d items)
  = foldl (fun acc k => if decide (k ∈ acc) then acc else acc ++ [k])
      (od_keys d) (map fst items).
Proof.
  revert d. induction items as [|[k v] items IH]; intros d; simpl.
  - reflexivity.
  - rewrite IH, od_keys_od_set. reflexivity.
Qed.

(** The keys of a dict built by assignments are the assigned keys in order
    of first occurrence. *)
Lemma od_keys_od_of_items (items : list (string * V)) :
  od_keys (od_of_items items) = first_occurrences (map fst items).
Proof. unfold od_of_items, first_occurrences. apply od_keys_foldl. Qed.

(** Assigning to a new key appends the item. *)
Lemma od_set_fresh (k : string) (v : V) (d : list (string * V)) :
  k ∉ od_keys d -> od_set k v d = d ++ [(k, v)].
Proof.
  induction d as [|[k' v'] d IH]; simpl; intros H.
  - reflexivity.
  - destruct (decide (k = k')) as [->|Hne].
    + exfalso. apply H. left.
    + f_equal. apply IH. intros Hin. apply H. right. exact Hin.
Qed.

(** Assignments to pairwise distinct new keys append the items in order. *)
Lemma od_foldl_fresh (items d : list (string * V)) :
  NoDup (od_keys d ++ map fst items) ->
  foldl (fun d kv => od_set (fst kv) (snd kv) d) d items = d ++ items.
Proof.
  revert d. induction items as [|[k v] items IH]; intros d Hnd; simpl.
  - symmetry. apply app_nil_r.
  - simpl in Hnd. rewrite od_set_fresh.
    + rewrite IH.
      * rewrite <- app_assoc. reflexivity.
      * unfold od_keys in *. rewrite map_app. simpl.
        rewrite <- app_assoc. simpl. exact Hnd.
    + apply NoDup_app in Hnd as (_ & Hd & _). intros Hin.
      apply (Hd k Hin). left.
Qed.

(** A dict built from items with pairwise distinct keys is the list of the
    items. *)
Lemma od_of_items_NoDup (items : list (string * V)) :
  NoDup (map fst items) -> od_of_items items = items.
Proof. intros H. unfold od_of_items. apply (od_foldl_fresh items []). exact H. Qed.

(** An assignment adds at most one item. *)
Lemma od_set_length (k : string) (v : V) (d : list (string * V)) :
  length d <= length (od_set k v d) <= S (length d).
Proof.
  induction d as [|[k' v'] d IH]; simpl; [lia|].
  destruct (decide (k = k')); simpl; lia.
Qed.

(** A dict has at most as many items as assignments made it. *)
Lemma od_of_items_length (items : list (string * V)) :
  length (od_of_items items) <= length items.
Proof.
  unfold od_of_items.
  assert (forall d, length (foldl (fun d kv => od_set (fst kv) (snd kv) d) d items)
                    <= length d + length items) as H.
  { induction items as [|kv items IH]; intros d; simpl; [lia|].
    pose proof (IH (od_set (fst kv) (snd kv) d)).
    pose proof (od_set_length (fst kv) (snd kv) d). lia. }
  apply (H []).
Qed.

End OrderedDictFacts.

(** Collecting first occurrences keeps the keys pairwise distinct. *)
Lemma occ_foldl_NoDup (ks acc : list string) :
  NoDup acc ->
  NoDup (foldl (fun acc k => if decide (k ∈ acc) then acc else acc ++ [k]) acc ks).
Proof.
  revert acc. induction ks as [|k ks IH]; intros acc Hnd; simpl; [exact Hnd|].
  apply IH. destruct (decide (k ∈ acc)); [exact Hnd|].
  apply NoDup_app. split; [exact Hnd|]. split.
  - intros x Hx Hx'. apply list_elem_of_singleton in Hx'. subst. contradiction.
  - apply NoDup_singleton.
Qed.

(** First occurrences are pairwise distinct. *)
Lemma first_occurrences_NoDup (ks : list string) : NoDup (first_occurrences ks).
Proof. apply occ_foldl_NoDup. constructor. Qed.

(** Collecting pairwise distinct new keys appends them. *)
Lemma occ_foldl_fresh (ks acc : list string) :
  NoDup (acc ++ ks) ->
  foldl (fun acc k => if decide (k ∈ acc) then acc else acc ++ [k]) acc ks
  = acc ++ ks.
Proof.
  revert acc. induction ks as [|k ks IH]; intros acc Hnd; simpl.
  - symmetry. apply app_nil_r.
  - destruct (decide (k ∈ acc)) as [Hin|Hin].
    + exfalso. apply NoDup_app in Hnd as (_ & Hd & _). apply (Hd k Hin). left.
    + rewrite IH; rewrite <- app_assoc; [reflexivity | exact Hnd].
Qed.

(** Keys that are pairwise distinct are their own first occurrences. *)
Lemma first_occurrences_id (ks : list string) :
  NoDup ks -> first_occurrences ks = ks.
Proof. intros H. apply (occ_foldl_fresh ks []). exact H. Qed.

(** Taking first occurrences twice changes nothing more. *)
Lemma first_occurrences_idem (ks : list string) :
  first_occurrences (first_occurrences ks) = first_occurrences ks.
Proof. apply first_occurrences_id, first_occurrences_NoDup. Qed.

(** ** PVGroupMeta: what a class body declares *)

Section MetaFacts.
Import Server.

(** The names [find_pvproperties] yields are the declared attribute
    names, in order. *)
Lemma find_pvproperties_keys dct found :
  find_pvproperties dct = Ok found -> map fst found = declared_attrs dct.
Proof.
  revert found. induction dct as [|[a v] dct IH]; intros found; simpl.
  - intros [= <-]. reflexivity.
  - destruct (startswith_underscore a); [apply IH|].
    destruct v as [p|s|x]; [| |apply IH].
    + destruct (find_pvproperties dct) as [tl|]; simpl; [|discriminate].
      intros [= <-]. simpl. f_equal. apply IH. reflexivity.
    + destruct (group_cls s) as [c|]; [|discriminate].
      destruct (find_pvproperties dct) as [tl|]; simpl; [|discriminate].
      intros [= <-]. rewrite map_app, map_map. simpl.
      f_equal; [|apply IH; reflexivity].
      unfold od_keys. rewrite map_map. reflexivity.
Qed.

(** [__set_name__] keeps the kind of a class attribute and the class a
    SubGroup refers to. *)
Lemma set_name_kind a v v' :
  set_name a v = Ok v' ->
  match v, v' with
  | A_pvproperty _, A_pvproperty _ => True
  | A_SubGroup s, A_SubGroup s' => group_cls s' = group_cls s
  | A_other _, A_other _ => True
  | _, _ => False
  end.
Proof.
  destruct v as [p|s|x]; simpl.
  - destruct (pvproperty_set_name p a); simpl; [|discriminate].
    intros [= <-]. exact I.
  - intros [= <-]. destruct s. reflexivity.
  - intros [= <-]. exact I.
Qed.

(** Naming the descriptors of a body does not change what it declares. *)
Lemma set_names_declared_attrs dct named :
  set_names dct = Ok named -> declared_attrs named = declared_attrs dct.
Proof.
  revert named. induction dct as [|[a v] dct IH]; intros named; simpl.
  - intros [= <-]. reflexivity.
  - destruct (set_name a v) as [v'|] eqn:Hv; simpl; [|discriminate].
    destruct (set_names dct) as [rest|]; simpl; [|discriminate].
    intros [= <-]. simpl. rewrite (IH rest eq_refl).
    apply set_name_kind in Hv.
    destruct (startswith_underscore a); [reflexivity|].
    destruct v, v'; try contradiction; try reflexivity.
    rewrite Hv. reflexivity.
Qed.

(** The keys of [_pvs_] are the declared attribute names in order of first
    occurrence, each once. *)
Lemma PVGroupMeta_new_pvs nm dct cls :
  PVGroupMeta_new nm dct = Ok cls ->
  od_keys (_pvs_ cls) = first_occurrences (declared_attrs dct)
  /\ NoDup (od_keys (_pvs_ cls)).
Proof.
  unfold PVGroupMeta_new.
  destruct (find_pvproperties dct); simpl; [|discriminate].
  destruct (set_names dct) as [named|] eqn:Hn; simpl; [|discriminate].
  destruct (find_pvproperties named) as [pvs|] eqn:Hp; simpl; [|discriminate].
  intros [= <-]. simpl.
  rewrite od_keys_od_of_items.
  rewrite (find_pvproperties_keys _ _ Hp), (set_names_declared_attrs _ _ Hn).
  split; [reflexivity | apply first_occurrences_NoDup].
Qed.

End MetaFacts.

(** ** PVSpec.new_names *)

Section NewNamesFacts.
Import Server.

(** A PVSpec that was constructed passed both accessor checks and holds
    the arguments it was given, with the dtype that was inferred. *)
Lemma PVSpec_new_Ok g p a n d v ag spec :
  PVSpec_new g p a n d v ag = Ok spec ->
  check_accessor g 2 = Ok () /\ check_accessor p 3 = Ok ()
  /\ infer_dtype d v = Ok (dtype spec)
  /\ spec = mk_PVSpec g p a n (dtype spec) v ag.
Proof.
  rewrite PVSpec_new_unfold.
  destruct (infer_dtype d v) as [d'|]; [|discriminate].
  destruct (check_accessor g 2) as [[]|]; [|discriminate].
  destruct (check_accessor p 3) as [[]|]; [|discriminate].
  intros [= <-]. simpl. repeat split.
Qed.

(** With an explicit dtype and accessors that pass, the construction
    succeeds; [value[0]] is not evaluated. *)
Lemma PVSpec_new_with_dtype g p a n d v ag :
  check_accessor g 2 = Ok () -> check_accessor p 3 = Ok () ->
  PVSpec_new g p a n (Some d) v ag = Ok (mk_PVSpec g p a n d v ag).
Proof.
  intros Hg Hp. rewrite PVSpec_new_unfold. simpl. rewrite Hg, Hp. reflexivity.
Qed.

(** [new_names] re-runs the constructor with the dtype given, so on a
    PVSpec that was constructed it cannot fail. *)
Lemma new_names_constructed g p a n d v ag spec a' n'
    (H : PVSpec_new g p a n d v ag = Ok spec) :
  new_names spec a' n'
  = Ok (mk_PVSpec g p
          (match a' with None => a | Some x => Some x end)
          (match n' with None => n | Some x => Some x end)
          (dtype spec) v ag)
  /\ new_names spec None None = Ok spec.
Proof.
  destruct (PVSpec_new_Ok _ _ _ _ _ _ _ _ H) as (Hg & Hp & _ & Hs).
  set (d' := dtype spec) in *. clearbody d'. subst spec.
  unfold new_names. simpl.
  split; apply PVSpec_new_with_dtype; assumption.
Qed.

(** [new_names] on a PVSpec that was constructed always succeeds; it
    replaces [attr] and [name] by the arguments that are not [None] and
    keeps every other field, the dtype included (it is passed on, not
    inferred again); with no argument it returns the PVSpec unchanged. *)
Theorem new_names_changes_names_only g p a n d v ag spec a' n'
    (H : PVSpec_new g p a n d v ag = Ok spec) :
  new_names spec a' n'
  = Ok (mk_PVSpec g p
          (match a' with None => a | Some x => Some x end)
          (match n' with None => n | Some x => Some x end)
          (dtype spec) v ag)
  /\ new_names spec None None = Ok spec.
Proof. exact (new_names_constructed g p a n d v ag spec a' n' H). Qed.

(** Renaming a PVSpec whose value is the scalar 5: the explicit dtype is
    kept and [value[0]] is not evaluated again. *)
Lemma new_names_changes_names_only_witness :
  new_names (mk_PVSpec None (Some async_putter) None None ty_int (VInt 5) None)
    (Some "x") None
  = Ok (mk_PVSpec None (Some async_putter) (Some "x") None ty_int (VInt 5) None).
Proof.
  apply (proj1 (new_names_changes_names_only None (Some async_putter) None None
                  (Some ty_int) (VInt 5) None
                  (mk_PVSpec None (Some async_putter) None None ty_int
                     (VInt 5) None)
                  (Some "x") None eq_refl)).
Defined.

End NewNamesFacts.

(** ** pvproperty.__set_name__ *)

Section SetNameFacts.
Import Server.

(** A pvproperty that [__init__] returned holds a constructed PVSpec made
    from its keywords, and has no attribute name yet. *)
Lemma pvproperty_init_Ok g p kw prop :
  pvproperty_init g p kw = Ok prop ->
  pv_attr_name prop = None /\ pv_spec_kw prop = kw
  /\ PVSpec_new g p (kw_attr kw) (kw_name kw) (kw_dtype kw) (kw_value kw)
       (kw_alarm_group kw) = Ok (pvspec prop).
Proof.
  unfold pvproperty_init.
  destruct (PVSpec_new g p _ _ _ _ _) as [s|]; simpl; [|discriminate].
  intros [= <-]. repeat split.
Qed.

(** [__set_name__] on a pvproperty whose PVSpec was constructed: the
    descriptor and the PVSpec take the attribute name, the PV name is the
    one already there or else the attribute name, nothing else changes. *)
Lemma pvproperty_set_name_constructed g p a n d v ag prop x
    (H : PVSpec_new g p a n d v ag = Ok (pvspec prop)) :
  pvproperty_set_name prop x
  = Ok (mk_pvproperty (Some x) (pv_spec_kw prop)
          (mk_PVSpec g p (Some x)
             (Some (match n with Some m => m | None => x end))
             (dtype (pvspec prop)) v ag)).
Proof.
  unfold pvproperty_set_name.
  pose proof (proj1 (new_names_constructed g p a n d v ag (pvspec prop)
                       (Some x)
                       (match name (pvspec prop) with
                        | Some m => Some m
                        | None => Some x
                        end) H)) as Hn.
  rewrite Hn. simpl.
  destruct (PVSpec_new_Ok _ _ _ _ _ _ _ _ H) as (_ & _ & _ & Hs).
  rewrite Hs. simpl. destruct n; reflexivity.
Qed.

(** When a class is created, a pvproperty made by [pvproperty(get, put,
    **spec_kw)] gets [attr] set to its attribute name (an [attr] keyword
    is overridden) and [name] set to the [name] keyword, or to the
    attribute name when there is none; naming cannot fail. *)
Theorem set_name_names_the_pvspec g p kw prop x
    (H : pvproperty_init g p kw = Ok prop) :
  exists prop',
    pvproperty_set_name prop x = Ok prop'
    /\ pv_attr_name prop' = Some x
    /\ attr (pvspec prop') = Some x
    /\ name (pvspec prop')
       = Some (match kw_name kw with Some m => m | None => x end)
    /\ get (pvspec prop') = g /\ put (pvspec prop') = p
    /\ dtype (pvspec prop') = dtype (pvspec prop)
    /\ value (pvspec prop') = kw_value kw
    /\ alarm_group (pvspec prop') = kw_alarm_group kw
    /\ pv_spec_kw prop' = kw.
Proof.
  destruct (pvproperty_init_Ok _ _ _ _ H) as (_ & Hkw & Hs).
  eexists. split.
  - apply (pvproperty_set_name_constructed _ _ _ _ _ _ _ _ _ Hs).
  - simpl. rewrite Hkw. repeat split.
Qed.

(** Naming [x = pvproperty(name='x')] as attribute [a]. *)
Lemma set_name_names_the_pvspec_witness :
  exists prop',
    pvproperty_set_name pvproperty_named_x "a" = Ok prop'
    /\ attr (pvspec prop') = Some "a" /\ name (pvspec prop') = Some "x".
Proof.
  destruct (set_name_names_the_pvspec None None
              (mk_spec_kw None (Some "x") None VNone None)
              pvproperty_named_x "a" eq_refl)
    as (prop' & H1 & _ & H2 & H3 & _).
  exists prop'. repeat split; assumption.
Defined.

(** A descriptor bound under a second attribute name (the same object
    assigned to two names of a class body) is named again: [attr] follows
    the last name, the PV name stays the one the first naming fixed. *)
Theorem set_name_twice_keeps_first_pv_name prop x p1 y
    (H : pvproperty_set_name prop x = Ok p1) :
  exists p2,
    pvproperty_set_name p1 y = Ok p2
    /\ pv_attr_name p2 = Some y
    /\ attr (pvspec p2) = Some y
    /\ name (pvspec p2) = name (pvspec p1)
    /\ name (pvspec p1) <> None.
Proof.
  unfold pvproperty_set_name in H.
  destruct (new_names (pvspec prop) _ _) as [s|] eqn:Hs; simpl in H;
    [|discriminate].
  injection H as <-. unfold new_names in Hs.
  pose proof (pvproperty_set_name_constructed _ _ _ _ _ _ _
                (mk_pvproperty (Some x) (pv_spec_kw prop) s) y Hs) as H2.
  eexists. split; [exact H2|]. simpl.
  destruct (PVSpec_new_Ok _ _ _ _ _ _ _ _ Hs) as (_ & _ & _ & Hs').
  rewrite Hs'. simpl.
  destruct (name (pvspec prop)); repeat split; discriminate.
Qed.

(** The descriptor of [a = pvproperty()] bound again as [b]. *)
Lemma set_name_twice_keeps_first_pv_name_witness :
  exists p1 p2,
    pvproperty_set_name bare_pvproperty "a" = Ok p1
    /\ pvproperty_set_name p1 "b" = Ok p2
    /\ attr (pvspec p2) = Some "b" /\ name (pvspec p2) = Some "a".
Proof.
  eexists.
  destruct (set_name_twice_keeps_first_pv_name bare_pvproperty "a" _ "b"
              eq_refl) as (p2 & H1 & _ & H2 & H3 & _).
  exists p2. repeat split; assumption.
Defined.

End SetNameFacts.

(** ** pvproperty.putter, pvproperty.__call__ and SubGroup.__set_name__ *)

Section DescriptorFacts.
Import Server.

(** [pvproperty.putter(put)] on a descriptor that was named: the putter is
    checked like a constructor argument (an assertion error for a callable
    that is not a coroutine function, a runtime error for a signature that
    cannot bind three arguments), and when it passes it replaces [put]
    while [get], [attr], [name], [dtype], [value], [alarm_group] and the
    attribute name stay: the names set by [__set_name__] survive. *)
Theorem putter_keeps_the_names prop0 x prop f
    (H : pvproperty_set_name prop0 x = Ok prop) :
  pvproperty_putter prop f
  = match check_accessor f 3 with
    | Ok _ =>
        Ok (mk_pvproperty (Some x) (pv_spec_kw prop)
              (mk_PVSpec (get (pvspec prop)) f (Some x) (name (pvspec prop))
                 (dtype (pvspec prop)) (value (pvspec prop))
                 (alarm_group (pvspec prop))))
    | Raise e => Raise e
    end.
Proof.
  unfold pvproperty_set_name in H.
  destruct (new_names (pvspec prop0) _ _) as [s|] eqn:Hs; simpl in H;
    [|discriminate].
  injection H as <-. unfold new_names in Hs.
  destruct (PVSpec_new_Ok _ _ _ _ _ _ _ _ Hs) as (Hg & _ & _ & Hs').
  unfold pvproperty_putter. simpl. rewrite PVSpec_new_unfold. simpl.
  rewrite Hs'. simpl. rewrite Hg.
  destruct (check_accessor f 3) as [[]|]; reflexivity.
Qed.

(** [x = pvproperty()] named, then given an [async def] putter and a
    plain [def] putter. *)
Lemma putter_keeps_the_names_witness :
  pvproperty_putter
    (mk_pvproperty (Some "x") no_kw
       (mk_PVSpec None None (Some "x") (Some "x") ty_int VNone None))
    (Some async_putter)
  = Ok (mk_pvproperty (Some "x") no_kw
          (mk_PVSpec None (Some async_putter) (Some "x") (Some "x") ty_int
             VNone None))
  /\ pvproperty_putter
       (mk_pvproperty (Some "x") no_kw
          (mk_PVSpec None None (Some "x") (Some "x") ty_int VNone None))
       (Some plain_putter)
     = Raise AssertionError.
Proof.
  split.
  - apply (putter_keeps_the_names bare_pvproperty "x" _ (Some async_putter)
             eq_refl).
  - apply (putter_keeps_the_names bare_pvproperty "x" _ (Some plain_putter)
             eq_refl).
Defined.

(** The decorator form, [pvproperty] called with keywords only and its
    result called with the accessors, gives what [pvproperty(get, put,
    **spec_kw)] gives: the same descriptor when the arguments are
    accepted, and the same exception when they are rejected, be it at the
    first call (the value, which both forms look at first) or at the
    second (the accessors). *)
Theorem decorator_form_equals_direct_form kw g p :
  (p0 ← pvproperty_init None None kw; pvproperty_call p0 g p)
  = pvproperty_init g p kw.
Proof.
  unfold pvproperty_init, pvproperty_call, PVSpec_new.
  destruct (infer_dtype (kw_dtype kw) (kw_value kw)) as [d|e] eqn:Hd; simpl;
    [|reflexivity].
  rewrite Hd. reflexivity.
Qed.

(** [pvproperty.__call__] after the descriptor was named rebuilds the
    PVSpec from the constructor keywords: [attr] and [name] fall back to
    the keywords and the names set by [__set_name__] are lost, while the
    descriptor's own [attr_name] stays. *)
Theorem call_after_naming_resets_the_names g0 p0 kw prop0 x prop g p q
    (Hi : pvproperty_init g0 p0 kw = Ok prop0)
    (Hn : pvproperty_set_name prop0 x = Ok prop)
    (Hc : pvproperty_call prop g p = Ok q) :
  pv_attr_name q = Some x
  /\ attr (pvspec q) = kw_attr kw
  /\ name (pvspec q) = kw_name kw
  /\ get (pvspec q) = g /\ put (pvspec q) = p.
Proof.
  destruct (pvproperty_init_Ok _ _ _ _ Hi) as (_ & Hkw & Hs0).
  rewrite (pvproperty_set_name_constructed _ _ _ _ _ _ _ _ x Hs0) in Hn.
  injection Hn as <-. unfold pvproperty_call in Hc. simpl in Hc.
  rewrite Hkw in Hc.
  destruct (PVSpec_new g p _ _ _ _ _) as [s|] eqn:Hs; simpl in Hc;
    [|discriminate].
  injection Hc as <-. simpl.
  destruct (PVSpec_new_Ok _ _ _ _ _ _ _ _ Hs) as (_ & _ & _ & ->).
  repeat split.
Qed.

(** [x = pvproperty()] is named, then called with a getter: the PVSpec
    has no [attr] and no [name] any more. *)
Lemma call_after_naming_resets_the_names_witness :
  exists q,
    pvproperty_call
      (mk_pvproperty (Some "x") no_kw
         (mk_PVSpec None None (Some "x") (Some "x") ty_int VNone None))
      (Some async_getter) None = Ok q
    /\ pv_attr_name q = Some "x"
    /\ attr (pvspec q) = None /\ name (pvspec q) = None.
Proof.
  eexists. split; [reflexivity|].
  destruct (call_after_naming_resets_the_names None None no_kw
              bare_pvproperty "x" _ (Some async_getter) None _
              eq_refl eq_refl eq_refl) as (H1 & H2 & H3 & _).
  repeat split; assumption.
Defined.

(** [SubGroup.__set_name__]: the prefix is the one given to the
    constructor or, when there was none, the attribute name followed by
    the separator; after naming it is never [None], and the class, the
    macros and the separator are unchanged. *)
Lemma SubGroup_set_name_prefix (s : SubGroup) (x : string) :
  sg_prefix (SubGroup_set_name s x)
  = Some (match sg_prefix s with
          | Some p => p
          | None => x +:+ sg_attr_separator s
          end)
  /\ group_cls (SubGroup_set_name s x) = group_cls s
  /\ sg_macros (SubGroup_set_name s x) = sg_macros s
  /\ sg_attr_separator (SubGroup_set_name s x) = sg_attr_separator s
  /\ SubGroup_set_name (SubGroup_set_name s x) x = SubGroup_set_name s x.
Proof.
  destruct s as [a c p m sep]. simpl. destruct p; repeat split.
Qed.

End DescriptorFacts.

(** ** PVGroupMeta: the _pvs_ table *)

Section PvsTableFacts.
Import Server.

(** A dotted name is private exactly when its first part is. *)
Lemma startswith_underscore_dot_join a x :
  startswith_underscore (dot_join a x) = startswith_underscore a.
Proof.
  destruct a as [|[[] [] [] [] [] [] [] []] [|c a]]; reflexivity.
Qed.

(** No declared attribute name starts with an underscore. *)
Lemma declared_attrs_public dct :
  Forall (fun k => startswith_underscore k = false) (declared_attrs dct).
Proof.
  induction dct as [|[a v] dct IH]; simpl; [constructor|].
  destruct (startswith_underscore a) eqn:Ha; [exact IH|].
  destruct v as [p|s|x]; [| |exact IH].
  - constructor; assumption.
  - destruct (group_cls s) as [c|]; [|exact IH].
    apply Forall_app. split; [|exact IH].
    apply Forall_forall. intros k Hk.
    apply list_elem_of_fmap in Hk as (y & -> & _).
    rewrite startswith_underscore_dot_join. exact Ha.
Qed.

(** [find_pvproperties] yields the declared attribute names in order, none
    of which starts with an underscore; it can only fail with
    [AttributeError], and only on a public SubGroup that has no class. *)
Theorem find_pvproperties_yields dct :
  match find_pvproperties dct with
  | Ok found =>
      map fst found = declared_attrs dct
      /\ Forall (fun k => startswith_underscore k = false) (map fst found)
  | Raise e =>
      e = AttributeError
      /\ exists a s, (a, A_SubGroup s) ∈ dct
                     /\ startswith_underscore a = false
                     /\ group_cls s = None
  end.
Proof.
  destruct (find_pvproperties dct) as [found|e] eqn:H.
  - rewrite (find_pvproperties_keys _ _ H).
    split; [reflexivity | apply declared_attrs_public].
  - revert H. induction dct as [|[a v] dct IH]; simpl; [discriminate|].
    destruct (startswith_underscore a) eqn:Ha.
    { intros H. destruct (IH H) as (-> & a' & s' & Hin & ? & ?).
      split; [reflexivity|]. exists a', s'. split; [right; exact Hin | auto]. }
    destruct v as [p|s|x].
    + destruct (find_pvproperties dct) as [tl|e']; simpl; [discriminate|].
      intros [= ->]. destruct (IH eq_refl) as (-> & a' & s' & Hin & ? & ?).
      split; [reflexivity|]. exists a', s'. split; [right; exact Hin | auto].
    + destruct (group_cls s) as [c|] eqn:Hc.
      * destruct (find_pvproperties dct) as [tl|e']; simpl; [discriminate|].
        intros [= ->]. destruct (IH eq_refl) as (-> & a' & s' & Hin & ? & ?).
        split; [reflexivity|]. exists a', s'. split; [right; exact Hin | auto].
      * intros [= <-]. split; [reflexivity|]. exists a, s.
        split; [left | auto].
    + intros H. destruct (IH H) as (-> & a' & s' & Hin & ? & ?).
      split; [reflexivity|]. exists a', s'. split; [right; exact Hin | auto].
Qed.

(** The [_pvs_] table of a class that [PVGroupMeta] created has one key
    per declared attribute name, in the order of the class body, none
    starting with an underscore and no key twice. *)
Theorem PVGroupMeta_new_pvs_keys nm dct cls
    (H : PVGroupMeta_new nm dct = Ok cls) :
  od_keys (_pvs_ cls) = first_occurrences (declared_attrs dct)
  /\ NoDup (od_keys (_pvs_ cls))
  /\ Forall (fun k => startswith_underscore k = false) (od_keys (_pvs_ cls))
  /\ (NoDup (declared_attrs dct) -> od_keys (_pvs_ cls) = declared_attrs dct).
Proof.
  destruct (PVGroupMeta_new_pvs _ _ _ H) as (Hk & Hnd).
  split; [exact Hk|]. split; [exact Hnd|]. split.
  - rewrite Hk. apply Forall_forall. intros k Hk'.
    pose proof (declared_attrs_public dct) as Hp.
    rewrite Forall_forall in Hp. apply Hp.
    unfold first_occurrences in Hk'.
    assert (forall ks acc,
              k ∈ foldl (fun acc k => if decide (k ∈ acc) then acc else acc ++ [k])
                    acc ks -> k ∈ acc \/ k ∈ ks) as Hsub.
    { induction ks as [|k0 ks IHks]; intros acc Hin; simpl in Hin; [auto|].
      apply IHks in Hin as [Hin|Hin]; [|right; right; exact Hin].
      destruct (decide (k0 ∈ acc)); [auto|].
      apply elem_of_app in Hin as [?|Hin]; [auto|].
      apply list_elem_of_singleton in Hin. subst. right. left. }
    apply Hsub in Hk' as [Hk'|Hk']; [inversion Hk' | exact Hk'].
  - intros Hd. rewrite Hk. apply first_occurrences_id. exact Hd.
Qed.

(** A class with a private pvproperty, a SubGroup and two public
    pvproperties. *)
Lemma PVGroupMeta_new_pvs_keys_witness :
  exists cls,
    PVGroupMeta_new "Outer" (("_p", A_pvproperty bare_pvproperty)
                             :: body_with_subgroup) = Ok cls
    /\ od_keys (_pvs_ cls) = ["a"; "s.x"; "s.y"; "b"].
Proof.
  eexists. split; [reflexivity|].
  apply (proj1 (PVGroupMeta_new_pvs_keys "Outer"
                  (("_p", A_pvproperty bare_pvproperty) :: body_with_subgroup)
                  _ eq_refl)).
Defined.

End PvsTableFacts.

(** ** channeldata_from_pvspec *)

Section ChannelDataFacts.
Import Server.

Section ChannelFacts.
Variable str_format : string -> gmap string string -> result string.

(** What [channeldata_from_pvspec] returns when it returns: the expanded
    full name, and a channel of the class its dtype selects, created for
    the group and the PVSpec, holding the PVSpec's value or the default
    value of the dtype. *)
Lemma channeldata_from_pvspec_Ok g s nm d :
  channeldata_from_pvspec str_format g s = Ok (nm, d) ->
  exists n c v,
    name s = Some n
    /\ expand_macros str_format (ref_prefix g +:+ n) (ref_macros g) = Ok nm
    /\ type_map (dtype s) = Ok c
    /\ (match value s with
        | VNone => default_values (dtype s)
        | x => Ok x
        end) = Ok v
    /\ d = PvpropertyData_init c g s v (alarm_group s)
    /\ full_pvname str_format d = Ok nm.
Proof.
  unfold channeldata_from_pvspec.
  destruct (name s) as [n|] eqn:Hn; simpl; [|discriminate].
  destruct (expand_macros _ _ _) as [fp|] eqn:Hf; simpl; [|discriminate].
  destruct (match value s with VNone => default_values (dtype s) | _ => _ end)
    as [v|] eqn:Hv; simpl; [|discriminate].
  destruct (type_map (dtype s)) as [c|] eqn:Hc; simpl; [|discriminate].
  intros [= <- <-]. exists n, c, v. repeat split; try assumption.
  unfold full_pvname. simpl. rewrite Hn. exact Hf.
Qed.

(** A PVSpec becomes a channel only if its dtype is [str], [int] or
    [float]: with any other dtype, and a name whose macros expand,
    [channeldata_from_pvspec] raises [KeyError], whether or not the
    PVSpec carries a value; with one of the three, the channel class
    follows the dtype and a missing value is replaced by ['-'], [0] or
    [0.0]. *)
Theorem channeldata_from_pvspec_by_dtype g s n nm
    (Hn : name s = Some n)
    (Hf : expand_macros str_format (ref_prefix g +:+ n) (ref_macros g) = Ok nm) :
  match dtype s with
  | ty_str =>
      channeldata_from_pvspec str_format g s
      = Ok (nm, PvpropertyData_init PvpropertyString g s
                  (match value s with VNone => VStr "-" | x => x end)
                  (alarm_group s))
  | ty_int =>
      channeldata_from_pvspec str_format g s
      = Ok (nm, PvpropertyData_init PvpropertyInteger g s
                  (match value s with VNone => VInt 0 | x => x end)
                  (alarm_group s))
  | ty_float =>
      channeldata_from_pvspec str_format g s
      = Ok (nm, PvpropertyData_init PvpropertyDouble g s
                  (match value s with VNone => VFloat 0 | x => x end)
                  (alarm_group s))
  | _ => channeldata_from_pvspec str_format g s = Raise KeyError
  end.
Proof.
  unfold channeldata_from_pvspec. rewrite Hn. simpl. rewrite Hf. simpl.
  destruct (dtype s); destruct (value s); reflexivity.
Qed.

End ChannelFacts.

(** A PVSpec whose dtype was inferred from a list of bools is constructed
    without complaint and can never become a channel. *)
Lemma channeldata_from_pvspec_by_dtype_witness :
  PVSpec_new None None (Some "x") (Some "x") None (VList [VBool true]) None
  = Ok (mk_PVSpec None None (Some "x") (Some "x") ty_bool
          (VList [VBool true]) None)
  /\ channeldata_from_pvspec plain_format (mk_GroupRef "P:" ∅)
       (mk_PVSpec None None (Some "x") (Some "x") ty_bool
          (VList [VBool true]) None)
     = Raise KeyError.
Proof.
  split; [reflexivity|].
  apply (channeldata_from_pvspec_by_dtype plain_format (mk_GroupRef "P:" ∅)
           (mk_PVSpec None None (Some "x") (Some "x") ty_bool
              (VList [VBool true]) None) "x" "P:x" eq_refl).
  vm_compute. reflexivity.
Defined.

End ChannelDataFacts.

(** ** PVGroupBase._create_pvdb: the loops *)

Section CreatePvdbLoops.
Import Server.

Section CreatePvdbFacts.
Variable str_format : string -> gmap string string -> result string.

(** The second loop of [_create_pvdb], when it completes: it created one
    channel per entry of [_pvs_], in order, each under the full name of
    the channel; [pvdb] received each channel under its full name and
    [attr_pvdb] received it under the attribute name. *)
Lemma create_channels_Ok self gs pvs db adb db' adb' :
  create_channels str_format self gs pvs db adb = Ok (db', adb') ->
  exists created : list (string * PvpropertyData),
    length created = length pvs
    /\ Forall (fun nc => full_pvname str_format (snd nc) = Ok (fst nc)) created
    /\ Forall2 (fun pv nc => data_pvspec (snd nc) = pvspec (snd pv)) pvs created
    /\ db' = foldl (fun d nc => od_set (fst nc) (snd nc) d) db created
    /\ adb' = foldl (fun d kv => od_set (fst kv) (snd kv) d) adb
                (zip (map fst pvs) (map snd created)).
Proof.
  revert db adb. induction pvs as [|[a pvprop] pvs IH]; intros db adb; simpl.
  - intros [= <- <-]. exists []. repeat split; constructor.
  - destruct (match rsplit_dot a with
              | Some (group_attr, _) =>
                  match od_get group_attr gs with
                  | Some sub => Ok (ref_of sub)
                  | None => Raise KeyError
                  end
              | None => Ok self
              end) as [g|]; simpl; [|discriminate].
    destruct (channeldata_from_pvspec str_format g (pvspec pvprop))
      as [[nm d]|] eqn:Hc; simpl; [|discriminate].
    intros H. destruct (IH _ _ H) as (created & Hl & Hf & Hs & Hdb & Hadb).
    exists ((nm, d) :: created). simpl.
    destruct (channeldata_from_pvspec_Ok _ _ _ _ _ Hc)
      as (n & c & v & _ & _ & _ & _ & Hd & Hfull).
    repeat split; try assumption.
    + f_equal. exact Hl.
    + constructor; assumption.
    + constructor; [|exact Hs]. simpl. rewrite Hd. reflexivity.
Qed.

(** What [PVGroupBase.__init__] leaves in the instance when it returns. *)
Lemma PVGroupBase_init_Ok c prefix_arg macros_arg inst :
  PVGroupBase_init str_format c prefix_arg macros_arg = Ok inst ->
  exists p,
    expand_macros str_format prefix_arg macros_arg = Ok p
    /\ g_prefix inst = p /\ g_macros inst = macros_arg
    /\ create_channels str_format (mk_GroupRef p macros_arg) (groups inst)
         (_pvs_ c) [] [] = Ok (pvdb inst, attr_pvdb inst).
Proof.
  destruct c as [nm sep subs pvs]. simpl.
  destruct (expand_macros str_format prefix_arg macros_arg) as [p|];
    simpl; [|discriminate].
  match goal with
  | |- mbind _ ?m = _ -> _ => destruct m as [gs|]
  end; simpl; [|discriminate].
  destruct (create_channels _ _ _ _ _ _) as [[db adb]|] eqn:Hc;
    simpl; [|discriminate].
  intros [= <-]. exists p. simpl. repeat split. exact Hc.
Qed.

End CreatePvdbFacts.

End CreatePvdbLoops.

(** ** PVGroupBase._create_pvdb: the two tables *)

Section CreatePvdbTables.
Import Server.

(** The two tables of an instance of a class that [PVGroupMeta] created:
    [attr_pvdb] has one entry per declared public attribute name, in
    class-body order; there is one channel per entry, each with a full PV
    name; [pvdb] is the dict obtained by assigning each of these channels
    to its full name in the same order, so a full name that occurs twice
    keeps one entry (at the place of the first, with the channel of the
    last) and [pvdb] is never longer than [attr_pvdb]. *)
Theorem create_pvdb_tables
    (str_format : string -> gmap string string -> result string)
    nm dct cls prefix_arg macros_arg inst
    (Hcls : PVGroupMeta_new nm dct = Ok cls)
    (Hinst : PVGroupBase_init str_format cls prefix_arg macros_arg = Ok inst) :
  od_keys (attr_pvdb inst) = first_occurrences (declared_attrs dct)
  /\ length (pvdb inst) <= length (attr_pvdb inst)
  /\ exists created : list (string * PvpropertyData),
      Forall (fun nc => full_pvname str_format (snd nc) = Ok (fst nc)) created
      /\ attr_pvdb inst
         = zip (first_occurrences (declared_attrs dct)) (map snd created)
      /\ map snd (attr_pvdb inst) = map snd created
      /\ pvdb inst = od_of_items created
      /\ (NoDup (map fst created) -> pvdb inst = created).
Proof.
  destruct (PVGroupMeta_new_pvs _ _ _ Hcls) as (Hk & Hnd).
  destruct (PVGroupBase_init_Ok _ _ _ _ _ Hinst) as (p & _ & _ & _ & Hc).
  destruct (create_channels_Ok _ _ _ _ _ _ _ _ Hc)
    as (created & Hl & Hf & _ & Hdb & Hadb).
  assert (length (od_keys (_pvs_ cls)) = length (map snd created)) as Hlen.
  { unfold od_keys. rewrite !length_map. symmetry. exact Hl. }
  assert (attr_pvdb inst = zip (od_keys (_pvs_ cls)) (map snd created)) as Ha.
  { rewrite Hadb. apply (od_of_items_NoDup (V := PvpropertyData)).
    change (NoDup (zip (od_keys (_pvs_ cls)) (map snd created)).*1).
    rewrite fst_zip; [exact Hnd | lia]. }
  assert (od_keys (attr_pvdb inst) = od_keys (_pvs_ cls)) as Hkeys.
  { rewrite Ha. change ((zip (od_keys (_pvs_ cls)) (map snd created)).*1 = od_keys (_pvs_ cls)).
    apply fst_zip. lia. }
  assert (map snd (attr_pvdb inst) = map snd created) as Hvals.
  { rewrite Ha.
    change ((zip (od_keys (_pvs_ cls)) (map snd created)).*2 = map snd created).
    apply snd_zip. lia. }
  assert (pvdb inst = od_of_items created) as Hp by exact Hdb.
  split; [rewrite Hkeys; exact Hk|]. split.
  - rewrite Hp. pose proof (od_of_items_length created) as Hle.
    assert (length (attr_pvdb inst) = length created) as ->; [|exact Hle].
    rewrite <- (length_map snd (attr_pvdb inst)), Hvals. apply length_map.
  - exists created. split; [exact Hf|]. split; [rewrite <- Hk; exact Ha|].
    split; [exact Hvals|]. split; [exact Hp|].
    intros Hd. rewrite Hp. apply od_of_items_NoDup. exact Hd.
Qed.

(** An instance of a class with a SubGroup, and an instance of a class
    whose two pvproperties share the PV name [x]. *)
Lemma create_pvdb_tables_witness :
  (exists cls inst,
     PVGroupMeta_new "Outer" body_with_subgroup = Ok cls
     /\ PVGroupBase_init plain_format cls "P:" ∅ = Ok inst
     /\ od_keys (attr_pvdb inst) = ["a"; "s.x"; "s.y"; "b"]
     /\ od_keys (pvdb inst) = ["P:a"; "P:s:x"; "P:s:y"; "P:b"])
  /\ (exists cls inst,
        PVGroupMeta_new "Twins" body_with_same_name = Ok cls
        /\ PVGroupBase_init plain_format cls "P:" ∅ = Ok inst
        /\ od_keys (attr_pvdb inst) = ["a"; "b"]
        /\ od_keys (pvdb inst) = ["P:x"]
        /\ length (pvdb inst) <= length (attr_pvdb inst)).
Proof.
  split.
  - eexists. eexists. split; [reflexivity|]. split; [vm_compute; reflexivity|].
    split; [|vm_compute; reflexivity].
    apply (proj1 (create_pvdb_tables plain_format "Outer" body_with_subgroup
                    _ "P:" ∅ _ eq_refl eq_refl)).
  - eexists. eexists. split; [reflexivity|]. split; [vm_compute; reflexivity|].
    split; [|split; [vm_compute; reflexivity|]].
    + apply (proj1 (create_pvdb_tables plain_format "Twins"
                      body_with_same_name _ "P:" ∅ _ eq_refl eq_refl)).
    + apply (proj1 (proj2 (create_pvdb_tables plain_format "Twins"
                             body_with_same_name _ "P:" ∅ _ eq_refl eq_refl))).
Defined.

End CreatePvdbTables.

(** ** The channels of a group instance *)

Section GroupChannelFacts.
Import Server.

(** An item of a dict after an assignment is the assigned item or an item
    that was there. *)
Lemma elem_of_od_set {V : Type} (k : string) (v : V) (d : list (string * V))
    (kv : string * V) :
  kv ∈ od_set k v d -> kv = (k, v) \/ kv ∈ d.
Proof.
  induction d as [|[k' v'] d IH]; simpl; intros H.
  - apply list_elem_of_singleton in H. auto.
  - destruct (decide (k = k')) as [->|Hne];
      apply elem_of_cons in H as [H|H]; auto.
    + right. apply elem_of_cons. auto.
    + right. apply elem_of_cons. auto.
    + destruct (IH H) as [?|?]; [auto|]. right. apply elem_of_cons. auto.
Qed.

Section ChannelInvariant.
Variable str_format : string -> gmap string string -> result string.

(** Every channel the second loop of [_create_pvdb] puts in a table holds
    the accessors of its PVSpec. *)
Lemma create_channels_accessors self gs pvs db adb db' adb' :
  create_channels str_format self gs pvs db adb = Ok (db', adb') ->
  Forall (fun kd => accessors_from_pvspec (snd kd)) db ->
  Forall (fun kd => accessors_from_pvspec (snd kd)) adb ->
  Forall (fun kd => accessors_from_pvspec (snd kd)) db'
  /\ Forall (fun kd => accessors_from_pvspec (snd kd)) adb'.
Proof.
  revert db adb. induction pvs as [|[a pvprop] pvs IH]; intros db adb; simpl.
  - intros [= <- <-]. auto.
  - destruct (match rsplit_dot a with
              | Some (group_attr, _) =>
                  match od_get group_attr gs with
                  | Some sub => Ok (ref_of sub)
                  | None => Raise KeyError
                  end
              | None => Ok self
              end) as [g|]; simpl; [|discriminate].
    destruct (channeldata_from_pvspec str_format g (pvspec pvprop))
      as [[nm d]|] eqn:Hc; simpl; [|discriminate].
    intros H Hdb Hadb.
    destruct (channeldata_from_pvspec_Ok _ _ _ _ _ Hc)
      as (n & c & v & _ & _ & _ & _ & Hd & _).
    assert (accessors_from_pvspec d) as Hacc.
    { rewrite Hd. split; reflexivity. }
    apply (IH _ _ H).
    + apply Forall_forall. intros kd Hin.
      apply elem_of_od_set in Hin as [->|Hin]; [exact Hacc|].
      rewrite Forall_forall in Hdb. apply Hdb. exact Hin.
    + apply Forall_forall. intros kd Hin.
      apply elem_of_od_set in Hin as [->|Hin]; [exact Hacc|].
      rewrite Forall_forall in Hadb. apply Hadb. exact Hin.
Qed.

(** Every channel of a group instance, in [pvdb] and in [attr_pvdb], whose
    PVSpec has no putter verifies a proposed value by returning it: the
    default write-verification is the identity on the channels a group
    actually serves, whatever the class. *)
Theorem group_channels_without_put_accept_any_value
    (call_put : callable -> GroupRef -> PvpropertyData -> pyval -> Co pyval)
    c prefix_arg macros_arg inst k d v
    (Hinst : PVGroupBase_init str_format c prefix_arg macros_arg = Ok inst)
    (Hin : (k, d) ∈ pvdb inst \/ (k, d) ∈ attr_pvdb inst)
    (Hput : put (data_pvspec d) = None) :
  snd (verify_value call_put d v) = Ok v
  /\ verify_value call_put d v
     = ([debug "group verify value for %s: %r"
           [arg_spec (data_pvspec d); arg_val v];
         debug "group write of %s = %s"
           [arg_attr (attr (data_pvspec d)); arg_val v]],
        Ok v).
Proof.
  destruct (PVGroupBase_init_Ok _ _ _ _ _ Hinst) as (p & _ & _ & _ & Hc).
  destruct (create_channels_accessors _ _ _ _ _ _ _ Hc) as (Hdb & Hadb);
    [constructor | constructor |].
  assert (accessors_from_pvspec d) as (_ & Hp).
  { destruct Hin as [Hin|Hin].
    - rewrite Forall_forall in Hdb. apply (Hdb _ Hin).
    - rewrite Forall_forall in Hadb. apply (Hadb _ Hin). }
  unfold verify_value. rewrite Hp, Hput. split; reflexivity.
Qed.

End ChannelInvariant.

(** The channel [x] of a group whose class declares [x = pvproperty()]. *)
Lemma group_channels_without_put_accept_any_value_witness :
  exists inst d,
    PVGroupMeta_new "Inner" body_xy = Ok class_xy
    /\ PVGroupBase_init plain_format class_xy "P:" ∅ = Ok inst
    /\ od_get "P:x" (pvdb inst) = Some d
    /\ snd (verify_value (fun _ _ _ _ => ([], Raise RuntimeError)) d (VInt 7))
       = Ok (VInt 7).
Proof.
  eexists. eexists.
  split; [reflexivity|]. split; [vm_compute; reflexivity|].
  split; [vm_compute; reflexivity|].
  refine (proj1 (group_channels_without_put_accept_any_value plain_format
                   (fun _ _ _ _ => ([], Raise RuntimeError))
                   class_xy "P:" ∅ _ "P:x" _ (VInt 7) _ _ _)).
  - vm_compute. reflexivity.
  - left. vm_compute. left.
  - reflexivity.
Defined.

End GroupChannelFacts.

(** ** PVGroupBase._create_pvdb: the groups table *)

Section GroupsTableFacts.
Import Server.

(** Reading a key after an assignment. *)
Lemma od_get_od_set {V : Type} (a k : string) (v : V) (d : list (string * V)) :
  od_get a (od_set k v d) = if decide (a = k) then Some v else od_get a d.
Proof.
  induction d as [|[k' v'] d IH]; simpl.
  - destruct (decide (a = k)); reflexivity.
  - destruct (decide (k = k')) as [->|Hne]; simpl.
    + destruct (decide (a = k')); reflexivity.
    + rewrite IH. destruct (decide (a = k')) as [->|]; [|reflexivity].
      destruct (decide (k' = k)); [congruence | reflexivity].
Qed.

(** A key has a value exactly when it is among the keys. *)
Lemma od_get_is_Some {V : Type} (k : string) (d : list (string * V)) :
  k ∈ od_keys d <-> exists v, od_get k d = Some v.
Proof.
  induction d as [|[k' v'] d IH]; simpl.
  - split; [intros H; inversion H | intros [v [=]]].
  - destruct (decide (k = k')) as [->|Hne].
    + split; [eauto | intros _; left].
    + rewrite elem_of_cons, IH. split; [intros [?|?]; [congruence|assumption] | auto].
Qed.

Section GroupsFacts.
Variable str_format : string -> gmap string string -> result string.

(** The constructor, with its first loop named. *)
Lemma PVGroupBase_init_unfold nm sep subs pvs prefix_arg macros_arg :
  PVGroupBase_init str_format (mk_PVGroupClass nm sep subs pvs) prefix_arg
    macros_arg
  = (p ← expand_macros str_format prefix_arg macros_arg;
     gs ← create_groups (PVGroupBase_init str_format) p macros_arg subs [];
     dbs ← create_channels str_format (mk_GroupRef p macros_arg) gs pvs [] [];
     Ok (mk_PVGroup macros_arg p (fst dbs) (snd dbs) gs)).
Proof. reflexivity. Qed.

(** The first loop of [_create_pvdb], when it completes: the keys it adds
    are the subgroup names in order, and each value it leaves under a new
    or overwritten key is the instance the constructor returned for the
    class of a subgroup of that name, with the group's prefix followed by
    the subgroup's and the subgroup's macros laid over the group's. *)
Lemma create_groups_Ok init p macros_arg subs acc gs :
  create_groups init p macros_arg subs acc = Ok gs ->
  od_keys gs
  = foldl (fun acc k => if decide (k ∈ acc) then acc else acc ++ [k])
      (od_keys acc) (map fst subs)
  /\ forall a g, od_get a gs = Some g ->
       od_get a acc = Some g
       \/ exists sg sc sp,
            (a, sg) ∈ subs /\ group_cls sg = Some sc /\ sg_prefix sg = Some sp
            /\ init sc (p +:+ sp) (sg_macros sg ∪ macros_arg) = Ok g.
Proof.
  revert acc. induction subs as [|[a0 sg] subs IH]; intros acc; simpl.
  - intros [= <-]. split; [reflexivity | auto].
  - destruct sg as [an sc sp sm sep]. destruct sp as [sp|]; [|discriminate].
    destruct sc as [sc|]; [|discriminate].
    destruct (init sc (p +:+ sp) (sm ∪ macros_arg)) as [g0|] eqn:Hi;
      simpl; [|discriminate].
    intros H. destruct (IH _ H) as (Hk & Hv). split.
    + rewrite Hk, od_keys_od_set. reflexivity.
    + intros a g Hg. destruct (Hv a g Hg) as [Hacc|(sg & sc' & sp' & Hin & ?)].
      * rewrite od_get_od_set in Hacc.
        destruct (decide (a = a0)) as [->|]; [|auto].
        injection Hacc as <-. right.
        exists (mk_SubGroup an (Some sc) (Some sp) sm sep), sc, sp.
        split; [left|]. repeat split. exact Hi.
      * right. exists sg, sc', sp'. split; [right; exact Hin | assumption].
Qed.

(** The [groups] table of an instance has one entry per key of
    [_subgroups_], in order; the instance stored under a name was built
    from the class of a subgroup of that name, with the parent's expanded
    prefix followed by the subgroup's prefix, and with the subgroup's
    macros laid over the parent's, so that a macro both define takes the
    subgroup's value. *)
Theorem subgroup_instances c prefix_arg macros_arg inst
    (Hinst : PVGroupBase_init str_format c prefix_arg macros_arg = Ok inst) :
  od_keys (groups inst) = first_occurrences (od_keys (_subgroups_ c))
  /\ forall a g, od_get a (groups inst) = Some g ->
       exists sg sc sp,
         (a, sg) ∈ _subgroups_ c
         /\ group_cls sg = Some sc /\ sg_prefix sg = Some sp
         /\ PVGroupBase_init str_format sc (g_prefix inst +:+ sp)
              (sg_macros sg ∪ macros_arg) = Ok g
         /\ g_macros g = sg_macros sg ∪ macros_arg
         /\ expand_macros str_format (g_prefix inst +:+ sp)
              (sg_macros sg ∪ macros_arg) = Ok (g_prefix g).
Proof.
  destruct c as [nm sep subs pvs]. rewrite PVGroupBase_init_unfold in Hinst.
  destruct (expand_macros str_format prefix_arg macros_arg) as [p|];
    simpl in Hinst; [|discriminate].
  destruct (create_groups _ p macros_arg subs []) as [gs|] eqn:Hg;
    simpl in Hinst; [|discriminate].
  destruct (create_channels _ _ _ _ _ _) as [dbs|]; simpl in Hinst;
    [|discriminate].
  injection Hinst as <-. simpl.
  destruct (create_groups_Ok _ _ _ _ _ _ Hg) as (Hk & Hv).
  split; [exact Hk|].
  intros a g Ha. destruct (Hv a g Ha) as [Hnil|(sg & sc & sp & Hin & Hc & Hp & Hi)];
    [discriminate|].
  exists sg, sc, sp. repeat split; try assumption.
  - destruct (PVGroupBase_init_Ok _ _ _ _ _ Hi) as (p' & _ & _ & Hm & _).
    exact Hm.
  - destruct (PVGroupBase_init_Ok _ _ _ _ _ Hi) as (p' & He & Hp' & _ & _).
    rewrite Hp'. exact He.
Qed.

End GroupsFacts.

(** The instance of a class with the subgroup [s]. *)
Lemma subgroup_instances_witness :
  exists cls inst,
    PVGroupMeta_new "Outer" body_with_subgroup = Ok cls
    /\ PVGroupBase_init plain_format cls "P:" ∅ = Ok inst
    /\ od_keys (groups inst) = first_occurrences (od_keys (_subgroups_ cls))
    /\ od_keys (groups inst) = ["s"].
Proof.
  eexists. eexists. split; [reflexivity|]. split; [vm_compute; reflexivity|].
  split; [|vm_compute; reflexivity].
  refine (proj1 (subgroup_instances plain_format _ "P:" ∅ _ _)).
  vm_compute. reflexivity.
Defined.

End GroupsTableFacts.

(** ** Descriptor access on an instance *)

Section DescriptorAccessFacts.
Import Server.

(** Deleting a key removes it, keeps the other keys in order and keeps
    what they hold; deleting an absent key raises [KeyError]. *)
Lemma od_delitem_spec {V : Type} (k : string) (d : list (string * V)) :
  NoDup (od_keys d) ->
  match od_delitem k d with
  | Ok d' => k ∈ od_keys d /\ od_get k d' = None
             /\ forall a, a <> k -> od_get a d' = od_get a d
  | Raise e => e = KeyError /\ k ∉ od_keys d
  end.
Proof.
  induction d as [|[k' v'] d IH]; simpl; intros Hnd.
  - split; [reflexivity | intros H; inversion H].
  - apply NoDup_cons in Hnd as (Hk' & Hnd).
    destruct (decide (k = k')) as [->|Hne].
    + split; [left|]. split.
      * destruct (od_get k' d) eqn:Hg; [|reflexivity].
        exfalso. apply Hk'. apply od_get_is_Some. eauto.
      * intros a Ha. destruct (decide (a = k')); [contradiction | reflexivity].
    + specialize (IH Hnd). destruct (od_delitem k d) as [d'|e]; simpl.
      * destruct IH as (Hin & Hg & Ho). split; [right; exact Hin|]. split.
        -- destruct (decide (k = k')); [contradiction | exact Hg].
        -- intros a Ha. destruct (decide (a = k')); [reflexivity | apply Ho, Ha].
      * destruct IH as (-> & Hn). split; [reflexivity|].
        intros Hin. apply elem_of_cons in Hin as [?|?]; contradiction.
Qed.

(** First occurrences have the same members as the list. *)
Lemma elem_of_first_occurrences (k : string) (ks : list string) :
  k ∈ first_occurrences ks <-> k ∈ ks.
Proof.
  unfold first_occurrences.
  assert (forall ks acc,
            k ∈ foldl (fun acc k => if decide (k ∈ acc) then acc else acc ++ [k])
                  acc ks <-> k ∈ acc \/ k ∈ ks) as Hgen.
  { clear ks. induction ks as [|k0 ks IHks]; intros acc; simpl.
    - split; [auto | intros [?|H]; [assumption | inversion H]].
    - rewrite IHks. destruct (decide (k0 ∈ acc)) as [Hin|Hin].
      + rewrite elem_of_cons. split; [tauto|].
        intros [?|[->|?]]; auto.
      + rewrite elem_of_app, list_elem_of_singleton, elem_of_cons. tauto. }
  rewrite Hgen. split; [intros [H|?]; [inversion H | assumption] | auto].
Qed.

(** The keys of [attr_pvdb] are the keys of [_pvs_]. *)
Lemma attr_pvdb_keys
    (str_format : string -> gmap string string -> result string)
    nm dct cls prefix_arg macros_arg inst :
  PVGroupMeta_new nm dct = Ok cls ->
  PVGroupBase_init str_format cls prefix_arg macros_arg = Ok inst ->
  od_keys (attr_pvdb inst) = first_occurrences (declared_attrs dct).
Proof.
  intros Hcls Hinst.
  destruct (PVGroupMeta_new_pvs _ _ _ Hcls) as (Hk & Hnd).
  destruct (PVGroupBase_init_Ok _ _ _ _ _ Hinst) as (p & _ & _ & _ & Hc).
  destruct (create_channels_Ok _ _ _ _ _ _ _ _ Hc)
    as (created & Hl & _ & _ & _ & Hadb).
  rewrite Hadb, od_keys_foldl. simpl.
  change (map fst (zip (map fst (_pvs_ cls)) (map snd created)))
    with ((zip (od_keys (_pvs_ cls)) (map snd created)).*1).
  rewrite fst_zip by (unfold od_keys; rewrite !length_map; lia).
  rewrite <- Hk. apply (first_occurrences_id _ Hnd).
Qed.

(** Looking a key up in a table whose values were made one for one from
    those of another table finds the value made from the one the other
    table holds. *)
Lemma od_get_zip_Forall2 {A B : Type} (P : A -> B -> Prop) (x : string)
    (pvs : list (string * A)) (created : list (string * B)) :
  Forall2 (fun pv nc => P (snd pv) (snd nc)) pvs created ->
  match od_get x pvs with
  | Some q =>
      exists d, od_get x (zip (map fst pvs) (map snd created)) = Some d
                /\ P q d
  | None => od_get x (zip (map fst pvs) (map snd created)) = None
  end.
Proof.
  induction 1 as [|[k q] [k' d] pvs created HP _ IH]; simpl.
  - reflexivity.
  - destruct (decide (x = k)); [|exact IH].
    exists d. split; [reflexivity | exact HP].
Qed.

Section DescriptorAccess.
Variable str_format : string -> gmap string string -> result string.

(** With distinct keys in [_pvs_], [attr_pvdb] holds under each key the
    channel made for the descriptor [_pvs_] holds under it. *)
Lemma attr_pvdb_of_pvs c prefix_arg macros_arg inst x :
  PVGroupBase_init str_format c prefix_arg macros_arg = Ok inst ->
  NoDup (od_keys (_pvs_ c)) ->
  match od_get x (_pvs_ c) with
  | Some q =>
      exists d, od_get x (attr_pvdb inst) = Some d
                /\ data_pvspec d = pvspec q
  | None => od_get x (attr_pvdb inst) = None
  end.
Proof.
  intros Hinst Hnd.
  destruct (PVGroupBase_init_Ok _ _ _ _ _ Hinst) as (p & _ & _ & _ & Hc).
  destruct (create_channels_Ok _ _ _ _ _ _ _ _ Hc)
    as (created & Hl & _ & H2 & _ & Hadb).
  rewrite Hadb, od_foldl_fresh; simpl.
  - apply (od_get_zip_Forall2
             (fun (q : pvproperty) (d : PvpropertyData) =>
                data_pvspec d = pvspec q) x _ _ H2).
  - change (map fst (zip (map fst (_pvs_ c)) (map snd created)))
      with ((zip (od_keys (_pvs_ c)) (map snd created)).*1).
    rewrite fst_zip by (unfold od_keys; rewrite !length_map; lia).
    exact Hnd.
Qed.

(** Reading through a pvproperty descriptor whose attribute name is [x],
    on an instance of a class [c]: when [_pvs_] of the class has the key
    [x], the read gives the channel [attr_pvdb] holds under [x], which is
    the one built from the PVSpec of the descriptor [_pvs_] holds under
    [x]; when [_pvs_] has no key [x] (a private attribute, or the
    descriptor of the class of a subgroup, whose own name is not the dotted
    key) the read raises [KeyError]. On the class the read gives the
    PVSpec of the descriptor. *)
Theorem descriptor_get_on_instance c prefix_arg macros_arg inst prop x
    (Hinst : PVGroupBase_init str_format c prefix_arg macros_arg = Ok inst)
    (Hnd : NoDup (od_keys (_pvs_ c)))
    (Hname : pv_attr_name prop = Some x) :
  (forall q, od_get x (_pvs_ c) = Some q ->
     exists d, pvproperty_get prop (Some inst) = Ok (on_instance d)
               /\ od_get x (attr_pvdb inst) = Some d
               /\ data_pvspec d = pvspec q)
  /\ (x ∉ od_keys (_pvs_ c) ->
      pvproperty_get prop (Some inst) = Raise KeyError)
  /\ pvproperty_get prop None = Ok (on_class (pvspec prop)).
Proof.
  pose proof (attr_pvdb_of_pvs _ _ _ _ x Hinst Hnd) as H.
  unfold pvproperty_get. rewrite Hname. unfold od_getitem.
  split; [|split].
  - intros q Hq. rewrite Hq in H. destruct H as (d & Hd & Hs).
    exists d. rewrite Hd. auto.
  - intros Hx. destruct (od_get x (_pvs_ c)) as [q|] eqn:Hq.
    + exfalso. apply Hx. apply od_get_is_Some. eauto.
    + rewrite H. reflexivity.
  - reflexivity.
Qed.

End DescriptorAccess.

(** An instance of [Outer], whose [_pvs_] has the keys [a], [s.x], [s.y]
    and [b]: the descriptor named [a] reads its channel, the descriptor of
    the subgroup's class named [x] reads nothing. *)
Lemma descriptor_get_on_instance_witness :
  exists inst,
    PVGroupBase_init plain_format class_outer "P:" ∅ = Ok inst
    /\ NoDup (od_keys (_pvs_ class_outer))
    /\ (exists d, pvproperty_get (pvproperty_at "a") (Some inst)
                  = Ok (on_instance d)
                  /\ name (data_pvspec d) = Some "a")
    /\ pvproperty_get (pvproperty_at "x") (Some inst) = Raise KeyError.
Proof.
  assert (NoDup (od_keys (_pvs_ class_outer))) as Hnd.
  { apply (bool_decide_unpack _). vm_compute. exact I. }
  destruct (PVGroupBase_init plain_format class_outer "P:" ∅)
    as [inst|] eqn:Hinst; [|vm_compute in Hinst; discriminate].
  exists inst. split; [reflexivity|]. split; [exact Hnd|].
  destruct (descriptor_get_on_instance plain_format class_outer "P:" ∅ inst
              (pvproperty_at "a") "a" Hinst Hnd eq_refl) as (Ha & _ & _).
  destruct (descriptor_get_on_instance plain_format class_outer "P:" ∅ inst
              (pvproperty_at "x") "x" Hinst Hnd eq_refl) as (_ & Hx & _).
  split.
  - destruct (od_get "a" (_pvs_ class_outer)) as [q|] eqn:Hq;
      [|vm_compute in Hq; discriminate].
    destruct (Ha q eq_refl) as (d & Hd & _ & Hs).
    exists d. split; [exact Hd|]. rewrite Hs.
    vm_compute in Hq. injection Hq as <-. reflexivity.
  - apply Hx. apply (bool_decide_unpack _). vm_compute. exact I.
Defined.

End DescriptorAccessFacts.

(** ** Descriptor assignment and deletion *)

Section DescriptorWriteFacts.
Import Server.

(** Assigning a channel to a pvproperty attribute of an instance replaces
    what the attribute reads, and nothing else: the other attributes read
    as before, and [pvdb] is untouched, so the PV name still leads to the
    channel that was registered at construction. *)
Theorem descriptor_set_then_get prop x inst d
    (Hname : pv_attr_name prop = Some x) :
  exists inst',
    pvproperty_set prop inst d = Some inst'
    /\ pvproperty_get prop (Some inst') = Ok (on_instance d)
    /\ pvdb inst' = pvdb inst
    /\ groups inst' = groups inst
    /\ forall q y, pv_attr_name q = Some y -> y <> x ->
         pvproperty_get q (Some inst') = pvproperty_get q (Some inst).
Proof.
  unfold pvproperty_set. rewrite Hname. eexists. split; [reflexivity|].
  unfold pvproperty_get. rewrite Hname. simpl. unfold od_getitem.
  rewrite od_get_od_set. destruct (decide (x = x)); [|congruence].
  repeat split. intros q y Hq Hy. rewrite Hq, od_get_od_set.
  destruct (decide (y = x)); [contradiction | reflexivity].
Qed.

(** Replacing the channel of [x] on an instance of the class with [x] and
    [y]: [x] reads the new channel, [pvdb] still has the two channels
    made at construction. *)
Lemma descriptor_set_then_get_witness :
  exists inst',
    pvproperty_set (pvproperty_at "x") instance_xy
      (PvpropertyData_init PvpropertyInteger (mk_GroupRef "Q:" ∅)
         (pvspec (pvproperty_at "x")) (VInt 1) None) = Some inst'
    /\ pvproperty_get (pvproperty_at "x") (Some inst')
       = Ok (on_instance
               (PvpropertyData_init PvpropertyInteger (mk_GroupRef "Q:" ∅)
                  (pvspec (pvproperty_at "x")) (VInt 1) None))
    /\ pvdb inst' = pvdb instance_xy.
Proof.
  destruct (descriptor_set_then_get (pvproperty_at "x") "x" instance_xy
              (PvpropertyData_init PvpropertyInteger (mk_GroupRef "Q:" ∅)
                 (pvspec (pvproperty_at "x")) (VInt 1) None) eq_refl)
    as (inst' & Hs & Hg & Hp & _).
  exists inst'. repeat split; assumption.
Defined.

(** [del instance.attr] through a pvproperty descriptor: when the
    attribute is registered it is removed from [attr_pvdb], after which
    reading it raises [KeyError], while the other attributes and [pvdb]
    are as before; when it is not registered the deletion itself raises
    [KeyError]. *)
Theorem descriptor_delete_then_get prop x inst
    (Hname : pv_attr_name prop = Some x)
    (Hnd : NoDup (od_keys (attr_pvdb inst))) :
  match pvproperty_delete prop inst with
  | Some (Ok inst') =>
      x ∈ od_keys (attr_pvdb inst)
      /\ pvproperty_get prop (Some inst') = Raise KeyError
      /\ pvdb inst' = pvdb inst
      /\ forall q y, pv_attr_name q = Some y -> y <> x ->
           pvproperty_get q (Some inst') = pvproperty_get q (Some inst)
  | Some (Raise e) => e = KeyError /\ x ∉ od_keys (attr_pvdb inst)
  | None => False
  end.
Proof.
  unfold pvproperty_delete. rewrite Hname.
  pose proof (od_delitem_spec x (attr_pvdb inst) Hnd) as Hd.
  destruct (od_delitem x (attr_pvdb inst)) as [db|e]; simpl.
  - destruct Hd as (Hin & Hg & Ho). split; [exact Hin|].
    unfold pvproperty_get. rewrite Hname. simpl. unfold od_getitem.
    rewrite Hg. repeat split. intros q y Hq Hy. rewrite Hq, (Ho y Hy).
    reflexivity.
  - exact Hd.
Qed.

(** Deleting [x] on an instance of the class with [x] and [y], and
    deleting [z], which is not there. *)
Lemma descriptor_delete_then_get_witness :
  NoDup (od_keys (attr_pvdb instance_xy))
  /\ match pvproperty_delete (pvproperty_at "x") instance_xy with
     | Some (Ok inst') =>
         pvproperty_get (pvproperty_at "x") (Some inst') = Raise KeyError
         /\ pvdb inst' = pvdb instance_xy
     | _ => False
     end
  /\ pvproperty_delete (pvproperty_at "z") instance_xy
     = Some (Raise KeyError).
Proof.
  assert (NoDup (od_keys (attr_pvdb instance_xy))) as Hnd.
  { apply (bool_decide_unpack _). vm_compute. exact I. }
  split; [exact Hnd|]. split.
  - pose proof (descriptor_delete_then_get (pvproperty_at "x") "x"
                  instance_xy eq_refl Hnd) as H.
    destruct (pvproperty_delete (pvproperty_at "x") instance_xy)
      as [[inst'|e]|] eqn:Hd.
    + destruct H as (_ & Hg & Hp & _). split; assumption.
    + vm_compute in Hd. discriminate.
    + exact H.
  - pose proof (descriptor_delete_then_get (pvproperty_at "z") "z"
                  instance_xy eq_refl Hnd) as H.
    destruct (pvproperty_delete (pvproperty_at "z") instance_xy)
      as [[inst'|e]|] eqn:Hd.
    + vm_compute in Hd. discriminate.
    + destruct H as (-> & _). reflexivity.
    + destruct H.
Defined.

End DescriptorWriteFacts.

(** ** PVFunction: the PVSpecs of an RPC-like function *)

Section PVFunctionFacts.
Import Server.

(** [list(v)] of a value whose first element exists is a non-empty list. *)
Lemma py_list_nonempty v v0 :
  getitem0 v = Ok v0 -> exists xs, py_list v = Ok (VList xs) /\ xs <> [].
Proof.
  destruct v as [| | | |s|bs|xs|xs]; simpl; try discriminate.
  - destruct s; [discriminate|]. intros _. eexists. split; [reflexivity|].
    simpl. discriminate.
  - destruct bs; [discriminate|]. intros _. eexists. split; [reflexivity|].
    simpl. discriminate.
  - destruct xs; [discriminate|]. intros _. eexists. split; [reflexivity|].
    discriminate.
  - destruct xs; [discriminate|]. intros _. eexists. split; [reflexivity|].
    discriminate.
Qed.

(** The default of a parameter always becomes a non-empty list: a value
    without [__getitem__] (a number, a bool, [None]) is wrapped into a
    one-element list, a non-empty sequence is copied into a list (a str
    into its characters, a bytes object into ints), and an empty sequence
    is rejected with [ValueError]; no other exception leaves the block. *)
Theorem normalize_default_spec (v : pyval) :
  match normalize_default v with
  | Ok l =>
      exists xs, l = VList xs /\ xs <> []
        /\ (if subscriptable v then py_list v = Ok (VList xs) else xs = [v])
  | Raise e =>
      e = ValueError /\ subscriptable v = true
      /\ getitem0 v = Raise IndexError
  end.
Proof.
  unfold normalize_default.
  destruct (getitem0 v) as [v0|e] eqn:Hg.
  - destruct (py_list_nonempty _ _ Hg) as (xs & Hl & Hne). rewrite Hl.
    exists xs. repeat split; try assumption.
    destruct v; try discriminate Hg; reflexivity.
  - destruct v as [| | | |s|bs|xs|xs]; simpl in Hg;
      try (injection Hg as <-; simpl; eexists; repeat split; discriminate).
    + destruct s; [|discriminate]. injection Hg as <-. repeat split.
    + destruct bs; [|discriminate]. injection Hg as <-. repeat split.
    + destruct xs; [|discriminate]. injection Hg as <-. repeat split.
    + destruct xs; [|discriminate]. injection Hg as <-. repeat split.
Qed.

(** A PVSpec made from a parameter has no accessors, the dotted attribute
    and the colon-separated PV name of the parameter, the annotation as
    dtype (never inferred) and the normalised default as value; the only
    way to fail is the [ValueError] of an empty sequence default. *)
Lemma pvspec_from_parameter_spec a ag param :
  pvspec_from_parameter a ag param
  = match normalize_default (par_default param) with
    | Ok v =>
        Ok (mk_PVSpec None None (Some (a +:+ "." +:+ par_name param))
              (Some (a +:+ ":" +:+ par_name param)) (annotation param) v ag)
    | Raise e => Raise e
    end.
Proof.
  unfold pvspec_from_parameter.
  destruct (normalize_default (par_default param)); reflexivity.
Qed.

(** The specs of a list of parameters are the specs of its parts. *)
Lemma pvspecs_from_parameters_app a ag xs ys l :
  pvspecs_from_parameters a ag (xs ++ ys) = Ok l ->
  exists l1 l2,
    l = l1 ++ l2 /\ length l1 = length xs
    /\ pvspecs_from_parameters a ag xs = Ok l1
    /\ pvspecs_from_parameters a ag ys = Ok l2.
Proof.
  revert l. induction xs as [|x xs IH]; intros l; simpl.
  - intros H. exists [], l. auto.
  - destruct (pvspec_from_parameter a ag x) as [s|]; simpl; [|discriminate].
    destruct (pvspecs_from_parameters a ag (xs ++ ys)) as [tl|] eqn:Ht;
      simpl; [|discriminate].
    intros [= <-]. destruct (IH tl eq_refl) as (l1 & l2 & -> & Hl & H1 & H2).
    exists (s :: l1), l2. rewrite H1. simpl.
    repeat split; [f_equal; exact Hl | exact H2].
Qed.

(** Every spec made from parameters carries the alarm group and no
    accessor. *)
Lemma pvspecs_from_parameters_fields a ag params l :
  pvspecs_from_parameters a ag params = Ok l ->
  Forall (fun s => alarm_group s = ag /\ get s = None /\ put s = None) l.
Proof.
  revert l. induction params as [|x xs IH]; intros l; simpl.
  - intros [= <-]. constructor.
  - rewrite pvspec_from_parameter_spec.
    destruct (normalize_default (par_default x)) as [v|]; simpl; [|discriminate].
    destruct (pvspecs_from_parameters a ag xs) as [tl|]; simpl; [|discriminate].
    intros [= <-]. constructor; [repeat split | apply IH; reflexivity].
Qed.

Section PVFunctionSpecs.
Variable check_parameter_name : string -> result unit.

(** What [get_additional_parameters] returns when it returns. *)
Lemma get_additional_parameters_Ok self f extra :
  get_additional_parameters check_parameter_name self f = Ok extra ->
  exists t d,
    return_annotation f = ret_type t /\ default_values t = Ok d
    /\ extra = [ mk_fn_param (process_name (names self)) ty_int (VInt 0);
                 mk_fn_param (status_name (names self)) ty_str
                   (VBytes [73; 110; 105; 116]%Z);
                 mk_fn_param (return_name (names self)) t d ].
Proof.
  unfold get_additional_parameters, Parameter_new.
  destruct (return_annotation f) as [| |t]; simpl; try discriminate.
  - destruct (check_parameter_name (process_name (names self)));
      simpl; [|discriminate].
    destruct (check_parameter_name (status_name (names self)));
      simpl; discriminate.
  - destruct (check_parameter_name (process_name (names self)));
      simpl; [|discriminate].
    destruct (check_parameter_name (status_name (names self)));
      simpl; [|discriminate].
    destruct (default_values t) as [d|] eqn:Hd; simpl; [|discriminate].
    destruct (check_parameter_name (return_name (names self)));
      simpl; [|discriminate].
    intros [= <-]. exists t, d. repeat split. exact Hd.
Qed.

(** Once a PVFunction has both its function and its attribute name,
    [_update_pvspec] returns one PVSpec for each parameter after [self],
    in order, followed by exactly three more: the process PV (int, [0]),
    the status PV (str; its value is the list of the four byte values of
    [b'Init'], not a str) and the return PV (the return type, with the
    default value of that type). Every PVSpec has no getter and no putter
    and carries the alarm group, which is the function's name when none
    was given. *)
Theorem update_pvspec_adds_three self f a self' specs
    (Hf : func self = Some f) (Ha : pf_attr_name self = Some a)
    (H : _update_pvspec check_parameter_name self = Ok (self', specs)) :
  let ag := Some (default (f_name f) (pf_alarm_group self)) in
  exists t d own,
    return_annotation f = ret_type t
    /\ default_values t = Ok d
    /\ pvspecs_from_parameters a ag (tail (f_parameters f)) = Ok own
    /\ length own = length (f_parameters f) - 1
    /\ specs
       = own ++
         [ mk_PVSpec None None
             (Some (a +:+ "." +:+ process_name (names self)))
             (Some (a +:+ ":" +:+ process_name (names self)))
             ty_int (VList [VInt 0]) ag;
           mk_PVSpec None None
             (Some (a +:+ "." +:+ status_name (names self)))
             (Some (a +:+ ":" +:+ status_name (names self)))
             ty_str (VList [VInt 73; VInt 110; VInt 105; VInt 116]) ag;
           mk_PVSpec None None
             (Some (a +:+ "." +:+ return_name (names self)))
             (Some (a +:+ ":" +:+ return_name (names self)))
             t (VList [d]) ag ]
    /\ pf_alarm_group self' = ag
    /\ Forall (fun s => alarm_group s = ag /\ get s = None /\ put s = None)
         specs.
Proof.
  intros ag. unfold _update_pvspec in H. rewrite Hf, Ha in H.
  assert (Hag : match pf_alarm_group self with
                | Some g => Some g
                | None => Some (f_name f)
                end = ag) by (unfold ag; destruct (pf_alarm_group self); reflexivity).
  rewrite Hag in H. simpl in H.
  destruct (get_additional_parameters _ _ f) as [extra|] eqn:He;
    simpl in H; [|discriminate].
  destruct (pvspecs_from_parameters a ag (tail (f_parameters f) ++ extra))
    as [l|] eqn:Hl; simpl in H; [|discriminate].
  injection H as <- <-.
  pose proof (pvspecs_from_parameters_fields _ _ _ _ Hl) as Hall.
  apply get_additional_parameters_Ok in He.
  destruct He as (t & d & Hr & Hd & ->). simpl in *.
  destruct (pvspecs_from_parameters_app _ _ _ _ _ Hl)
    as (l1 & l2 & -> & Hlen & H1 & H2).
  exists t, d, l1. repeat split; try assumption.
  - rewrite Hlen. destruct (f_parameters f); simpl; lia.
  - f_equal. simpl in H2. rewrite !pvspec_from_parameter_spec in H2.
    simpl in H2.
    destruct t; simpl in Hd; try discriminate; injection Hd as <-;
      simpl in H2; injection H2 as <-; reflexivity.
Qed.

(** The checks on the return annotation come before any parameter is
    looked at: [-> None] fails the assertion, a function without return
    annotation passes it ([Signature.empty] is a class, hence true) and
    fails with [KeyError] at the lookup of the default value, as does a
    return type other than str, int and float. The names of the process
    and status PVs are checked in between. *)
Theorem update_pvspec_return_annotation self f a
    (Hf : func self = Some f) (Ha : pf_attr_name self = Some a)
    (Hp : check_parameter_name (process_name (names self)) = Ok ())
    (Hs : check_parameter_name (status_name (names self)) = Ok ()) :
  match return_annotation f with
  | ret_None =>
      _update_pvspec check_parameter_name self = Raise AssertionError
  | ret_empty => _update_pvspec check_parameter_name self = Raise KeyError
  | ret_type t =>
      t <> ty_str -> t <> ty_int -> t <> ty_float ->
      _update_pvspec check_parameter_name self = Raise KeyError
  end.
Proof.
  unfold _update_pvspec, get_additional_parameters, Parameter_new.
  rewrite Hf, Ha. simpl.
  destruct (return_annotation f) as [| |t]; simpl.
  - rewrite Hp, Hs. reflexivity.
  - reflexivity.
  - rewrite Hp, Hs. simpl. intros H1 H2 H3.
    destruct t; try contradiction; reflexivity.
Qed.

(** The decorator form gives the same descriptor as the direct form:
    [PVFunction(default, alarm_group, ...)(func)] followed by the naming of
    the class attribute equals [PVFunction(func, default, alarm_group,
    ...)] followed by the naming; before the naming the PVSpec list is
    empty and the alarm group is still the one given. *)
Theorem pvfunction_decorator_form_equals_direct_form f d ag nm a :
  PVFunction_call check_parameter_name (PVFunction_init None d ag nm) f
  = Ok (PVFunction_init (Some f) d ag nm)
  /\ (p ← PVFunction_call check_parameter_name (PVFunction_init None d ag nm) f;
      PVFunction_set_name check_parameter_name p a)
     = PVFunction_set_name check_parameter_name
         (PVFunction_init (Some f) d ag nm) a.
Proof.
  split; reflexivity.
Qed.

End PVFunctionSpecs.

(** [move] declared as [move = PVFunction(move)] in a class body. *)
Lemma update_pvspec_adds_three_witness :
  exists self' specs,
    _update_pvspec ascii_parameter_name
      (mk_PVFunction (Some "move") VNone (Some sample_move) None
         default_names []) = Ok (self', specs)
    /\ map name specs
       = [Some "move:position"; Some "move:label"; Some "move:Process";
          Some "move:Status"; Some "move:Retval"]
    /\ map dtype specs = [ty_float; ty_str; ty_int; ty_str; ty_int]
    /\ pf_alarm_group self' = Some "move".
Proof.
  destruct (_update_pvspec ascii_parameter_name
              (mk_PVFunction (Some "move") VNone (Some sample_move) None
                 default_names [])) as [[self' specs]|] eqn:H;
    [|vm_compute in H; discriminate].
  destruct (update_pvspec_adds_three ascii_parameter_name
              (mk_PVFunction (Some "move") VNone (Some sample_move) None
                 default_names []) sample_move "move" self' specs
              eq_refl eq_refl H)
    as (t & d & own & Ht & Hd & Ho & Hlen & Hs & Hag & _).
  exists self', specs. split; [reflexivity|].
  injection Ht as <-. injection Hd as <-.
  vm_compute in Ho. injection Ho as <-. subst specs.
  repeat split. exact Hag.
Defined.

(** A function without return annotation, and one that returns [None]. *)
Lemma update_pvspec_return_annotation_witness :
  _update_pvspec ascii_parameter_name
    (mk_PVFunction (Some "f") VNone
       (Some (mk_py_function "f" [mk_fn_param "self" ty_NoneType VNone]
                ret_empty)) None default_names [])
  = Raise KeyError
  /\ _update_pvspec ascii_parameter_name
       (mk_PVFunction (Some "f") VNone
          (Some (mk_py_function "f" [mk_fn_param "self" ty_NoneType VNone]
                   ret_None)) None default_names [])
     = Raise AssertionError.
Proof.
  split.
  - exact (update_pvspec_return_annotation ascii_parameter_name
             (mk_PVFunction (Some "f") VNone
                (Some (mk_py_function "f"
                         [mk_fn_param "self" ty_NoneType VNone] ret_empty))
                None default_names []) _ "f" eq_refl eq_refl eq_refl eq_refl).
  - exact (update_pvspec_return_annotation ascii_parameter_name
             (mk_PVFunction (Some "f") VNone
                (Some (mk_py_function "f"
                         [mk_fn_param "self" ty_NoneType VNone] ret_None))
                None default_names []) _ "f" eq_refl eq_refl eq_refl eq_refl).
Defined.

End PVFunctionFacts.

(** ** The registration tables of an instance *)

Section RegistrationTableFacts.
Import Server.

(** The public names a body declares are at most as many as the
    pvproperties it declares, and exactly as many when no attribute of the
    body is private. *)
Lemma declared_attrs_length dct :
  length (declared_attrs dct) <= declared_pvproperties dct
  /\ (Forall (fun a => startswith_underscore a = false) (map fst dct) ->
      length (declared_attrs dct) = declared_pvproperties dct).
Proof.
  induction dct as [|[a v] dct [IH1 IH2]]; simpl.
  - split; [lia | reflexivity].
  - split.
    + destruct (startswith_underscore a).
      * destruct v as [q|s|y]; [lia| |lia]. destruct (group_cls s); lia.
      * destruct v as [q|s|y]; simpl; [lia| |lia].
        destruct (group_cls s) as [c|]; [|lia].
        rewrite length_app, length_map. unfold od_keys. rewrite length_map. lia.
    + intros H. apply Forall_cons in H as [Ha H]. simpl in Ha. rewrite Ha.
      specialize (IH2 H).
      destruct v as [q|s|y]; simpl; [lia| |lia].
      destruct (group_cls s) as [c|]; [|lia].
      rewrite length_app, length_map. unfold od_keys. rewrite length_map. lia.
Qed.

(** Dropping repeated keys does not make a list longer. *)
Lemma first_occurrences_length (ks : list string) :
  length (first_occurrences ks) <= length ks.
Proof.
  pose proof (od_of_items_length (map (fun k => (k, tt)) ks)) as H.
  rewrite <- (length_map fst (od_of_items _)) in H.
  change (map fst (od_of_items (map (fun k => (k, tt)) ks)))
    with (od_keys (od_of_items (map (fun k => (k, tt)) ks))) in H.
  rewrite od_keys_od_of_items, map_map, length_map in H. simpl in H.
  rewrite map_id in H. exact H.
Qed.

(** C6, amended: constructing an instance of a class that [PVGroupMeta]
    created fills both tables in the constructor, in class-body order.
    [attr_pvdb] receives one entry per declared public attribute name, a
    pvproperty of the class of a SubGroup under its dotted name; a
    pvproperty whose attribute name starts with an underscore gets none, so
    the entries are at most as many as the declared pvproperties and
    exactly as many when the names are distinct and none is private. There
    is one channel per entry, each with a full PV name, and [pvdb] is the
    dict obtained by assigning these channels to their full names in the
    same order: its keys are the full names in order of first occurrence,
    and when the full names are distinct [pvdb] has the same channels as
    [attr_pvdb] in the same order. *)
Theorem create_pvdb_registers_public_pvproperties
    (str_format : string -> gmap string string -> result string)
    nm dct cls prefix_arg macros_arg inst
    (Hcls : PVGroupMeta_new nm dct = Ok cls)
    (Hinst : PVGroupBase_init str_format cls prefix_arg macros_arg = Ok inst) :
  od_keys (attr_pvdb inst) = first_occurrences (declared_attrs dct)
  /\ length (attr_pvdb inst) <= declared_pvproperties dct
  /\ (NoDup (declared_attrs dct) ->
      od_keys (attr_pvdb inst) = declared_attrs dct
      /\ (Forall (fun a => startswith_underscore a = false) (map fst dct) ->
          length (attr_pvdb inst) = declared_pvproperties dct))
  /\ exists created : list (string * PvpropertyData),
      Forall (fun nc => full_pvname str_format (snd nc) = Ok (fst nc)) created
      /\ Forall2 (fun pv nc => data_pvspec (snd nc) = pvspec (snd pv))
           (_pvs_ cls) created
      /\ map snd (attr_pvdb inst) = map snd created
      /\ pvdb inst = od_of_items created
      /\ od_keys (pvdb inst) = first_occurrences (map fst created)
      /\ (NoDup (map fst created) ->
          pvdb inst = created
          /\ map snd (pvdb inst) = map snd (attr_pvdb inst)
          /\ length (pvdb inst) = length (attr_pvdb inst)).
Proof.
  pose proof (attr_pvdb_keys str_format _ _ _ _ _ _ Hcls Hinst) as Hkeys.
  destruct (PVGroupMeta_new_pvs _ _ _ Hcls) as (Hk & Hnd).
  destruct (PVGroupBase_init_Ok _ _ _ _ _ Hinst) as (p & _ & _ & _ & Hc).
  destruct (create_channels_Ok _ _ _ _ _ _ _ _ Hc)
    as (created & Hl & Hf & H2 & Hdb & Hadb).
  assert (length (od_keys (_pvs_ cls)) = length (map snd created)) as Hlen.
  { unfold od_keys. rewrite !length_map. symmetry. exact Hl. }
  assert (attr_pvdb inst = zip (od_keys (_pvs_ cls)) (map snd created)) as Ha.
  { rewrite Hadb. apply (od_of_items_NoDup (V := PvpropertyData)).
    change (NoDup (zip (od_keys (_pvs_ cls)) (map snd created)).*1).
    rewrite fst_zip; [exact Hnd | lia]. }
  assert (map snd (attr_pvdb inst) = map snd created) as Hvals.
  { rewrite Ha.
    change ((zip (od_keys (_pvs_ cls)) (map snd created)).*2 = map snd created).
    apply snd_zip. lia. }
  assert (length (attr_pvdb inst) = length (first_occurrences (declared_attrs dct)))
    as Hlen_a.
  { rewrite <- Hkeys. unfold od_keys. rewrite length_map. reflexivity. }
  destruct (declared_attrs_length dct) as (Hle & Heq).
  split; [exact Hkeys|]. split; [|split].
  - rewrite Hlen_a. pose proof (first_occurrences_length (declared_attrs dct)).
    lia.
  - intros Hd. rewrite Hkeys, (first_occurrences_id _ Hd).
    split; [reflexivity|]. intros Hpub.
    rewrite Hlen_a, (first_occurrences_id _ Hd). apply Heq, Hpub.
  - exists created. split; [exact Hf|]. split; [exact H2|].
    split; [exact Hvals|]. split; [exact Hdb|]. split.
    + rewrite Hdb. apply od_keys_od_of_items.
    + intros Hd.
      assert (pvdb inst = created) as Hp
        by (rewrite Hdb; apply od_of_items_NoDup; exact Hd).
      split; [exact Hp|]. split.
      * rewrite Hp, Hvals. reflexivity.
      * rewrite Hp, <- (length_map snd (attr_pvdb inst)), Hvals, length_map.
        reflexivity.
Qed.

(** An instance of [Outer], which has two pvproperties of its own and two
    from its SubGroup: four entries, in class-body order. *)
Lemma create_pvdb_registers_public_pvproperties_witness :
  exists inst,
    PVGroupMeta_new "Outer" body_with_subgroup = Ok class_outer
    /\ PVGroupBase_init plain_format class_outer "P:" ∅ = Ok inst
    /\ od_keys (attr_pvdb inst) = ["a"; "s.x"; "s.y"; "b"]
    /\ declared_pvproperties body_with_subgroup = 4
    /\ length (attr_pvdb inst) = 4.
Proof.
  destruct (PVGroupBase_init plain_format class_outer "P:" ∅)
    as [inst|] eqn:Hinst; [|vm_compute in Hinst; discriminate].
  exists inst. split; [reflexivity|]. split; [reflexivity|].
  destruct (create_pvdb_registers_public_pvproperties plain_format "Outer"
              body_with_subgroup class_outer "P:" ∅ inst eq_refl Hinst)
    as (Hk & _ & Hnd & _).
  split; [exact Hk|]. split; [reflexivity|].
  apply Hnd; apply (bool_decide_unpack _); vm_compute; exact I.
Defined.

(** C6 as stated fails: a pvproperty bound to a private name is declared
    and gets no entry in either table, and two pvproperties with the same
    PV name get two entries in [attr_pvdb] and one in [pvdb]. *)
Lemma declared_pvproperty_without_entry :
  (exists cls inst,
     PVGroupMeta_new "G" body_with_private = Ok cls
     /\ PVGroupBase_init plain_format cls "P:" ∅ = Ok inst
     /\ declared_pvproperties body_with_private = 2
     /\ od_keys (attr_pvdb inst) = ["x"]
     /\ od_keys (pvdb inst) = ["P:x"]
     /\ length (attr_pvdb inst) <> declared_pvproperties body_with_private
     /\ length (pvdb inst) <> declared_pvproperties body_with_private)
  /\ (exists cls inst,
        PVGroupMeta_new "Twins" body_with_same_name = Ok cls
        /\ PVGroupBase_init plain_format cls "P:" ∅ = Ok inst
        /\ declared_pvproperties body_with_same_name = 2
        /\ od_keys (attr_pvdb inst) = ["a"; "b"]
        /\ od_keys (pvdb inst) = ["P:x"]
        /\ length (pvdb inst) <> declared_pvproperties body_with_same_name).
Proof.
  split; eexists; eexists; (split; [reflexivity|]);
    (split; [vm_compute; reflexivity|]); repeat split; discriminate.
Qed.

End RegistrationTableFacts.

(** ** SearchCache: the backoff of unresolved names *)

Section SearchCacheFacts.
Import Client.

Section BackoffFacts.
Variable cfg : Tunables.
Hypothesis Hpos : (0 < min_retry_searches_interval cfg)%Q.
Hypothesis Hle :
  (min_retry_searches_interval cfg <= max_retry_searches_interval cfg)%Q.





End BackoffFacts.


End SearchCacheFacts.

(** ** Circuit: death after repeated failures *)

Section CircuitFacts.
Import Client.

(** A dead Circuit ignores every event. *)
Lemma circuit_step_Dead limit ev c :
  state c = Dead -> circuit_step limit ev c = (c, []).
Proof. unfold circuit_step. intros ->. destruct ev; reflexivity. Qed.

Lemma circuit_run_Dead limit evs c :
  state c = Dead -> circuit_run limit evs c = (c, []).
Proof.
  intros Hd. induction evs as [|ev evs IH]; simpl; [reflexivity|].
  rewrite (circuit_step_Dead _ _ _ Hd). simpl. rewrite IH. reflexivity.
Qed.

(** Running events one list after the other. *)
Lemma circuit_run_app limit evs1 evs2 c :
  circuit_run limit (evs1 ++ evs2) c
  = let r := circuit_run limit evs1 c in
    let r' := circuit_run limit evs2 (fst r) in
    (fst r', snd r ++ snd r').
Proof.
  revert c. induction evs1 as [|ev evs1 IH]; intros c; simpl.
  - destruct (circuit_run limit evs2 c). reflexivity.
  - rewrite IH. simpl. rewrite app_assoc. reflexivity.
Qed.

Lemma circuit_run_cons limit ev rest c :
  circuit_run limit (ev :: rest) c
  = (fst (circuit_run limit rest (fst (circuit_step limit ev c))),
     snd (circuit_step limit ev c)
     ++ snd (circuit_run limit rest (fst (circuit_step limit ev c)))).
Proof. reflexivity. Qed.

(** An attempt that starts and fails, on a Circuit that is not connected:
    the failure is counted, and the one that reaches the limit kills the
    Circuit and fails every pending entry. *)
Lemma failed_attempt_steps limit ev st f p a rest :
  (st = Unconnected /\ ev = ev_connect)
  \/ (st = Disconnected /\ ev = ev_reconnect) ->
  circuit_run limit (ev :: ev_attempt_failed :: rest) (mk_Circuit st f p a)
  = if decide (limit <= S f)%nat
    then (mk_Circuit Dead (S f) [] (S a), fail_all p)
    else circuit_run limit rest (mk_Circuit Disconnected (S f) p (S a)).
Proof.
  intros [[-> ->]|[-> ->]]; rewrite !circuit_run_cons;
    unfold circuit_step; simpl;
    (destruct (decide (limit <= S f)%nat); simpl;
     [rewrite circuit_run_Dead by reflexivity; simpl;
      rewrite app_nil_r; reflexivity
     |destruct (circuit_run limit rest _); reflexivity]).
Qed.

(** Reconnect attempts that fail, from [f] failures on: the Circuit dies
    at the attempt that reaches the limit, and is left disconnected with
    its pending entries if the limit is not reached. *)
Lemma failed_reconnects_run limit k f p a :
  circuit_run limit (failed_reconnects k) (mk_Circuit Disconnected f p a)
  = if decide (limit <= f + k)%nat
    then (if decide (k = 0)%nat
          then (mk_Circuit Disconnected f p a, [])
          else (mk_Circuit Dead (Nat.max (S f) limit) []
                  (a + (Nat.max (S f) limit - f)), fail_all p))
    else (mk_Circuit Disconnected (f + k) p (a + k), []).
Proof.
  revert f a. induction k as [|k IH]; intros f a.
  - simpl. rewrite !Nat.add_0_r.
    destruct (decide (limit <= f)%nat); reflexivity.
  - change (failed_reconnects (S k))
      with (ev_reconnect :: ev_attempt_failed :: failed_reconnects k).
    rewrite failed_attempt_steps by auto.
    destruct (decide (limit <= S f)%nat) as [Hl|Hl].
    + destruct (decide (limit <= f + S k)%nat); [|exfalso; lia].
      simpl. replace (Nat.max (S f) limit) with (S f) by lia.
      f_equal. f_equal; lia.
    + rewrite IH.
      destruct (decide (limit <= S f + k)%nat) as [H1|H1];
        destruct (decide (limit <= f + S k)%nat) as [H2|H2];
        try (exfalso; lia).
      * destruct (decide (k = 0)%nat) as [->|Hk]; [exfalso; lia|]. simpl.
        replace (Nat.max (S (S f)) limit) with limit by lia.
        replace (Nat.max (S f) limit) with limit by lia.
        f_equal. f_equal; lia.
      * f_equal. f_equal; lia.
Qed.

(** As many failed attempts in a row as the limit allows leave a Circuit
    that was not connected dead, with every pending entry failed; fewer
    leave it disconnected, with its pending entries. *)
Lemma failed_attempts_on_run limit n c :
  (0 < n <= limit)%nat ->
  state c = Unconnected \/ state c = Disconnected -> failures c = 0%nat ->
  circuit_run limit (failed_attempts_on c n) c
  = if decide (n = limit)
    then (mk_Circuit Dead limit [] (attempts c + limit), fail_all (pending c))
    else (mk_Circuit Disconnected n (pending c) (attempts c + n), []).
Proof.
  intros Hn Hst Hf. destruct c as [st f p a]. simpl in Hst, Hf. subst f.
  unfold failed_attempts_on. simpl.
  destruct Hst as [-> | ->].
  - destruct n as [|k]; [lia|].
    unfold failed_attempts. rewrite failed_attempt_steps by auto.
    destruct (decide (limit <= 1)%nat) as [Hl|Hl].
    + destruct (decide (S k = limit)); [|exfalso; lia].
      replace limit with 1%nat by lia. f_equal. f_equal; lia.
    + rewrite failed_reconnects_run.
      destruct (decide (limit <= 1 + k)%nat) as [H1|H1].
      * destruct (decide (k = 0)%nat); [exfalso; lia|].
        destruct (decide (S k = limit)); [|exfalso; lia].
        replace (Nat.max 2 limit) with limit by lia.
        f_equal. f_equal; lia.
      * destruct (decide (S k = limit)); [exfalso; lia|].
        f_equal. f_equal; lia.
  - rewrite failed_reconnects_run.
    destruct (decide (limit <= 0 + n)%nat) as [H1|H1].
    + destruct (decide (n = 0)%nat); [exfalso; lia|].
      destruct (decide (n = limit)); [|exfalso; lia].
      replace (Nat.max 1 limit) with limit by lia.
      f_equal. f_equal; lia.
    + destruct (decide (n = limit)); [exfalso; lia|]. reflexivity.
Qed.

(** A Context that does not hold the address ignores the events. *)
Lemma context_run_absent evs a ctx :
  circuits ctx !! a = None -> context_run evs a ctx = (ctx, []).
Proof.
  intros Hn. induction evs as [|ev evs IH]; simpl; [reflexivity|].
  unfold context_step. rewrite Hn. simpl. rewrite IH. reflexivity.
Qed.

(** The Context follows the Circuit it holds under an address: after the
    events the registry holds the Circuit as the events left it, or no
    Circuit under that address if they killed it; the callers are told
    what the Circuit reported. *)
Lemma context_run_follows evs a ctx c :
  circuits ctx !! a = Some c -> state c <> Dead ->
  let r := circuit_run (circuit_death_attempts (config ctx)) evs c in
  context_run evs a ctx
  = (mk_Context (config ctx)
       (if decide (state (fst r) = Dead)
        then delete a (circuits ctx)
        else <[a := fst r]> (circuits ctx)),
     snd r).
Proof.
  revert ctx c. induction evs as [|ev evs IH]; intros [cfg m] c; simpl;
    intros Hreg Hnd.
  - destruct (decide (state c = Dead)); [contradiction|].
    rewrite (insert_id _ _ _ Hreg). reflexivity.
  - unfold context_step. simpl. rewrite Hreg.
    destruct (decide (state (fst (circuit_step (circuit_death_attempts cfg)
                                    ev c)) = Dead)) as [Hd|Hd]; simpl.
    + rewrite context_run_absent by (simpl; apply lookup_delete_eq).
      rewrite (circuit_run_Dead _ _ _ Hd). simpl.
      destruct (decide (state (fst (circuit_step (circuit_death_attempts cfg)
                                      ev c)) = Dead)); [|contradiction].
      rewrite app_nil_r. reflexivity.
    + rewrite (IH (mk_Context cfg
                     (<[a := fst (circuit_step (circuit_death_attempts cfg)
                                    ev c)]> m)) _
                 (lookup_insert_eq _ _ _) Hd).
      simpl. rewrite delete_insert_eq, insert_insert_eq. reflexivity.
Qed.

(** C4: a Circuit registered in a Context, not connected and with no
    failed attempt counted, that fails as many attempts in a row as the
    Context's limit allows: it ends [Dead]; every entry that was pending is
    failed with [DisconnectedError] and none stays pending; a later [send]
    fails with [DisconnectedError]; whatever events follow, the Circuit
    stays as it is, so it starts no further attempt; and the Context no
    longer holds it, whatever events follow. Fewer failed attempts than
    the limit leave it registered and disconnected. *)
Theorem circuit_death ctx a c
    (Hlimit : (0 < circuit_death_attempts (config ctx))%nat)
    (Hreg : circuits ctx !! a = Some c)
    (Hstate : state c = Unconnected \/ state c = Disconnected)
    (Hfail : failures c = 0%nat) :
  let limit := circuit_death_attempts (config ctx) in
  let dead := fst (circuit_run limit (failed_attempts_on c limit) c) in
  state dead = Dead
  /\ snd (circuit_run limit (failed_attempts_on c limit) c)
     = fail_all (pending c)
  /\ pending dead = []
  /\ failures dead = limit
  /\ attempts dead = (attempts c + limit)%nat
  /\ (forall ioid, send ioid dead = inl DisconnectedError)
  /\ (forall evs, circuit_run limit evs dead = (dead, []))
  /\ context_run (failed_attempts_on c limit) a ctx
     = (mk_Context (config ctx) (delete a (circuits ctx)),
        fail_all (pending c))
  /\ (forall evs,
        circuits (fst (context_run (failed_attempts_on c limit ++ evs) a ctx))
          !! a = None)
  /\ (forall n, (0 < n < limit)%nat ->
        circuit_run limit (failed_attempts_on c n) c
        = (mk_Circuit Disconnected n (pending c) (attempts c + n), [])
        /\ circuits (fst (context_run (failed_attempts_on c n) a ctx)) !! a
           = Some (mk_Circuit Disconnected n (pending c) (attempts c + n))).
Proof.
  intros limit dead.
  assert (state c <> Dead) as Hnd by (destruct Hstate as [-> | ->]; discriminate).
  assert (circuit_run limit (failed_attempts_on c limit) c
          = (mk_Circuit Dead limit [] (attempts c + limit),
             fail_all (pending c))) as Hrun.
  { rewrite failed_attempts_on_run by (try lia; assumption).
    destruct (decide (limit = limit)); [reflexivity | contradiction]. }
  assert (dead = mk_Circuit Dead limit [] (attempts c + limit)) as Hdead
    by (unfold dead; rewrite Hrun; reflexivity).
  assert (context_run (failed_attempts_on c limit) a ctx
          = (mk_Context (config ctx) (delete a (circuits ctx)),
             fail_all (pending c))) as Hctx.
  { rewrite (context_run_follows _ _ _ _ Hreg Hnd).
    fold limit. rewrite Hrun. reflexivity. }
  rewrite Hdead, Hrun. simpl.
  repeat split.
  - intros evs. apply circuit_run_Dead. reflexivity.
  - exact Hctx.
  - intros evs.
    assert (forall e1 e2 x, context_run (e1 ++ e2) a x
              = (fst (context_run e2 a (fst (context_run e1 a x))),
                 snd (context_run e1 a x)
                 ++ snd (context_run e2 a (fst (context_run e1 a x)))))
      as Happ.
    { induction e1 as [|ev e1 IH]; intros e2 x; simpl.
      - destruct (context_run e2 a x). reflexivity.
      - rewrite IH. simpl. rewrite app_assoc. reflexivity. }
    rewrite Happ, Hctx. simpl.
    rewrite context_run_absent by (simpl; apply lookup_delete_eq).
    simpl. apply lookup_delete_eq.
  - rewrite failed_attempts_on_run by (try lia; assumption).
    destruct (decide (n = limit)); [exfalso; lia | reflexivity].
  - rewrite (context_run_follows _ _ _ _ Hreg Hnd).
    fold limit. rewrite failed_attempts_on_run by (try lia; assumption).
    destruct (decide (n = limit)); [exfalso; lia|]. simpl.
    apply lookup_insert_eq.
Qed.

(** A Context with the module's limit of three attempts that holds one
    Circuit, with two requests pending. *)
Lemma circuit_death_witness :
  let c := mk_Circuit Unconnected 0 [7; 8]%nat 0 in
  let ctx := mk_Context (module_defaults ∅) {[ ("ioc", 5064%Z) := c ]} in
  context_run (failed_attempts 3) ("ioc", 5064%Z) ctx
  = (mk_Context (module_defaults ∅) (delete ("ioc", 5064%Z) (circuits ctx)),
     [(7%nat, DisconnectedError); (8%nat, DisconnectedError)])
  /\ circuits (fst (context_run (failed_attempts 3 ++ [ev_reconnect])
                      ("ioc", 5064%Z) ctx)) !! ("ioc", 5064%Z) = None
  /\ state (fst (circuit_run 3 (failed_attempts 2) c)) = Disconnected.
Proof.
  intros c ctx.
  assert (circuits ctx !! ("ioc", 5064%Z) = Some c) as Hreg
    by apply lookup_singleton_eq.
  destruct (circuit_death ctx ("ioc", 5064%Z) c
              (Nat.lt_0_succ 2) Hreg (or_introl eq_refl) eq_refl)
    as (_ & _ & _ & _ & _ & _ & _ & Hctx & Hnone & Hbelow).
  split; [exact Hctx|]. split; [exact (Hnone [ev_reconnect])|].
  destruct (Hbelow 2%nat) as (Hr & _).
  - change (0 < 2 < 3)%nat. lia.
  - change (circuit_death_attempts (config ctx)) with 3%nat in Hr.
    change (failed_attempts_on c 2) with (failed_attempts 2) in Hr.
    rewrite Hr. reflexivity.
Defined.

End CircuitFacts.

(** ** Subscription delivery: the byte cap on a batch *)

Section DeliveryFacts.
Import Client.






End DeliveryFacts.

(** ** Context: the configuration surface *)

Section ContextFacts.
Import Client.


(** An overridden limit is the one the Context's Circuits die by: with a
    limit of one attempt, the first failure evicts the Circuit. *)
Lemma Context_new_override_in_use :
  let ctx := Context_new ∅
               (mk_Overrides None None None None None (Some 1%nat) None None) in
  let c := mk_Circuit Unconnected 0 [] 0 in
  let held := mk_Context (config ctx) {[ ("ioc", 5064%Z) := c ]} in
  circuit_death_attempts (config ctx) = 1%nat
  /\ event_add_batch_max_bytes (config ctx) = 65536%N
  /\ circuits (fst (context_run (failed_attempts 1) ("ioc", 5064%Z) held))
       !! ("ioc", 5064%Z) = None.
Proof.
  intros ctx c held. split; [reflexivity|]. split; [reflexivity|].
  vm_compute. reflexivity.
Qed.

End ContextFacts.
